(** * XSPI: blocking SPI and USART-as-SPI transfer primitives (XSPI.h)

    A shallow embedding of [src/PixelStick/XSPI/XSPI.h].  The driver is a
    set of [static inline] C functions that read and write memory-mapped
    registers and spin on status flags.  Here every register access goes
    through an abstract hardware interface and is recorded in a trace, so
    that properties about "what was written, in which order" can be stated
    next to properties about the resulting hardware state. *)

From Stdlib Require Import ZArith Lia List Bool.
From stdpp Require Import base list.
Import ListNotations.
Local Open Scope Z_scope.

(** ** Fixed-width integers

    C integers are modelled as [Z]; every conversion to a narrower unsigned
    type is written out as a reduction modulo a power of two. *)

Definition u8 (z : Z) : Z := z mod 2 ^ 8.
Definition u16 (z : Z) : Z := z mod 2 ^ 16.
Definition u32 (z : Z) : Z := z mod 2 ^ 32.

Definition is_u8 (z : Z) : Prop := 0 <= z < 2 ^ 8.
Definition is_u32 (z : Z) : Prop := 0 <= z < 2 ^ 32.

Infix ".|" := Z.lor (at level 50, left associativity).

(** ** Register blocks

    [SPI_t], [PORT_t] and [USART_t] come from <avr/io.h>; only the members
    the driver touches (and the direction and output registers of a port)
    are listed.  A pointer to a block is the block's base address. *)

Definition ptr := N.

Module SPI_t.
Inductive field := CTRL | INTCTRL | STATUS | DATA.
End SPI_t.

Module PORT_t.
Inductive field :=
  DIR | DIRSET | DIRCLR | DIRTGL | OUT | OUTSET | OUTCLR | OUTTGL | IN.
End PORT_t.

Module USART_t.
Inductive field :=
  DATA | STATUS | CTRLA | CTRLB | CTRLC | BAUDCTRLA | BAUDCTRLB.
End USART_t.

Inductive register :=
| Spi (p : ptr) (f : SPI_t.field)
| Port (p : ptr) (f : PORT_t.field)
| Usart (p : ptr) (f : USART_t.field).

(** One volatile access, with the byte that travelled over the bus. *)
Inductive event :=
| Rd (r : register) (v : Z)
| Wr (r : register) (v : Z).

(** typedef struct { ... } xspi_config_t; *)
Record xspi_config_t := {
  spi : ptr;
  port : ptr;
  mosi_pin : Z;
  miso_pin : Z;
  sck_pin : Z;
  ss_pin : Z
}.

(** [SPI_MODE_t] and [SPI_PRESCALER_t] are C enumerations of <avr/io.h>:
    a value of either is the integer of its enumerator. *)
Definition SPI_MODE_t := Z.
Definition SPI_PRESCALER_t := Z.

(** ** What the headers outside [XSPI.h] provide

    The bit masks and group configurations of <avr/io.h>, and [F_CPU] of
    "../config.h", are parameters of the development. *)

Class AvrIo := {
  SPI_ENABLE_bm : Z;
  SPI_MASTER_bm : Z;
  SPI_CLK2X_bm : Z;
  SPI_DORD_bm : Z;
  SPI_IF_bm : Z;
  USART_TXCIF_bm : Z;
  USART_DREIF_bm : Z;
  USART_RXEN_bm : Z;
  USART_TXEN_bm : Z;
  USART_CMODE_MSPI_gc : Z
}.

Class Config := { F_CPU : Z }.

(** The peripheral hardware: the only thing the driver can do with it is
    read and write 8-bit registers.  Reads may change the hardware state
    (a poll lets time pass, reading DATA may clear a flag). *)
Class Hardware (hw : Type) := {
  hw_read : register -> hw -> Z * hw;
  hw_write : register -> Z -> hw -> hw
}.

(** ** Executions

    A call either returns ([Done]), is still spinning in a busy-wait loop
    when the poll budget is exhausted ([Hang]), or runs into behaviour the
    C standard leaves undefined ([Undefined]).  In every case the hardware
    state reached and the register accesses performed so far are kept. *)

Inductive outcome (hw A : Type) :=
| Done (a : A) (h : hw) (t : list event)
| Hang (h : hw) (t : list event)
| Undefined (h : hw) (t : list event).

Arguments Done {hw A} a h t.
Arguments Hang {hw A} h t.
Arguments Undefined {hw A} h t.

Definition M (hw A : Type) : Type := hw -> outcome hw A.

Definition trace_of {hw A} (o : outcome hw A) : list event :=
  match o with Done _ _ t | Hang _ t | Undefined _ t => t end.

Definition state_of {hw A} (o : outcome hw A) : hw :=
  match o with Done _ h _ | Hang h _ | Undefined h _ => h end.

Definition returns {hw A} (o : outcome hw A) : bool :=
  match o with Done _ _ _ => true | _ => false end.

Definition is_undefined {hw A} (o : outcome hw A) : bool :=
  match o with Undefined _ _ => true | _ => false end.

(** [after t o]: the accesses [t] happened before those of [o]. *)
Definition after {hw A} (t : list event) (o : outcome hw A) : outcome hw A :=
  match o with
  | Done a h t' => Done a h (t ++ t')
  | Hang h t' => Hang h (t ++ t')
  | Undefined h t' => Undefined h (t ++ t')
  end.

Definition ret {hw A} (a : A) : M hw A := fun h => Done a h [].

Definition bind {hw A B} (m : M hw A) (k : A -> M hw B) : M hw B :=
  fun h =>
    match m h with
    | Done a h' t => after t (k a h')
    | Hang h' t => Hang h' t
    | Undefined h' t => Undefined h' t
    end.

Definition undefined {hw A} : M hw A := fun h => Undefined h [].

(** An operation that is only defined on part of its domain. *)
Definition eval {hw A} (o : option A) : M hw A :=
  match o with Some a => ret a | None => undefined end.

Declare Scope xspi_scope.
Delimit Scope xspi_scope with xspi.
Notation "x <- m ;; k" := (bind m (fun x => k))
  (at level 100, m at next level, right associativity) : xspi_scope.
Notation "m ;; k" := (bind m (fun _ => k))
  (at level 100, right associativity) : xspi_scope.
Local Open Scope xspi_scope.

Section Driver.

Context `{AvrIo} `{Config} {hw : Type} `{Hardware hw}.

(** volatile store to a [register8_t] *)
Definition reg_write (r : register) (v : Z) : M hw unit :=
  fun h => Done tt (hw_write r (u8 v) h) [Wr r (u8 v)].

(** volatile load from a [register8_t] *)
Definition reg_read (r : register) : M hw Z :=
  fun h => let '(v, h') := hw_read r h in Done (u8 v) h' [Rd r (u8 v)].

(** [while (!(reg & mask));] with at most [fuel] polls. *)
Fixpoint spin_until (fuel : nat) (r : register) (mask : Z) : M hw unit :=
  match fuel with
  | O => fun h => Hang h []
  | S fuel' =>
      s <- reg_read r ;;
      if Z.land s mask =? 0 then spin_until fuel' r mask else ret tt
  end.

(** [1 << n] in [int], which is 16 bits wide on AVR: defined while the
    result is representable. *)
Definition shl1 (n : Z) : option Z :=
  if (0 <=? n) && (n <? 15) then Some (Z.shiftl 1 n) else None.

(** *** Normal hardware SPI *)

Definition xspi_master_init (config : xspi_config_t) (mode : SPI_MODE_t)
    (lsb : bool) (prescaler : SPI_PRESCALER_t) (clk2x : bool) : M hw unit :=
  mosi <- eval (shl1 (mosi_pin config)) ;;
  sck <- eval (shl1 (sck_pin config)) ;;
  ss <- eval (shl1 (ss_pin config)) ;;
  reg_write (Port (port config) PORT_t.DIRSET) (mosi .| sck .| ss) ;;
  reg_write (Spi (spi config) SPI_t.CTRL)
    (SPI_ENABLE_bm .| SPI_MASTER_bm .| mode .| prescaler .|
     (if clk2x then SPI_CLK2X_bm else 0) .| (if lsb then SPI_DORD_bm else 0)).

Definition xspi_slave_init (config : xspi_config_t) (mode : SPI_MODE_t)
    (lsb : bool) : M hw unit :=
  miso <- eval (shl1 (miso_pin config)) ;;
  reg_write (Port (port config) PORT_t.DIRSET) miso ;;
  sck <- eval (shl1 (sck_pin config)) ;;
  ss <- eval (shl1 (ss_pin config)) ;;
  reg_write (Port (port config) PORT_t.DIRCLR) (sck .| ss) ;;
  reg_write (Spi (spi config) SPI_t.CTRL)
    (SPI_ENABLE_bm .| mode .| (if lsb then SPI_DORD_bm else 0)).

Definition xspi_transfer_byte (fuel : nat) (spi : ptr) (val : Z) : M hw Z :=
  reg_write (Spi spi SPI_t.DATA) val ;;
  spin_until fuel (Spi spi SPI_t.STATUS) SPI_IF_bm ;;
  reg_read (Spi spi SPI_t.DATA).

(** [while (len--) { spi->DATA = *data++; while (...); }]
    The pointer [data] is the caller's array together with an offset;
    [len] counts the iterations that remain. *)
Fixpoint send_loop (fuel : nat) (spi : ptr) (data : list Z) (i : nat)
    (len : nat) : M hw unit :=
  match len with
  | O => ret tt
  | S len' =>
      b <- eval (data !! i) ;;
      reg_write (Spi spi SPI_t.DATA) b ;;
      spin_until fuel (Spi spi SPI_t.STATUS) SPI_IF_bm ;;
      send_loop fuel spi data (S i) len'
  end.

Definition xspi_send_packet (fuel : nat) (spi : ptr) (data : list Z)
    (len : Z) : M hw unit :=
  send_loop fuel spi data 0 (Z.to_nat (u8 len)).

(** [while (len--) { spi->DATA = 0xFF; while (...); *data++ = spi->DATA; }]
    The result is the caller's array after the call. *)
Fixpoint get_loop (fuel : nat) (spi : ptr) (data : list Z) (i : nat)
    (len : nat) : M hw (list Z) :=
  match len with
  | O => ret data
  | S len' =>
      reg_write (Spi spi SPI_t.DATA) 255 ;;
      spin_until fuel (Spi spi SPI_t.STATUS) SPI_IF_bm ;;
      v <- reg_read (Spi spi SPI_t.DATA) ;;
      if (i <? length data)%nat
      then get_loop fuel spi (<[i:=v]> data) (S i) len'
      else undefined
  end.

Definition xspi_get_packet (fuel : nat) (spi : ptr) (data : list Z)
    (len : Z) : M hw (list Z) :=
  get_loop fuel spi data 0 (Z.to_nat (u8 len)).

(** *** USART specific SPI *)

(** [#define SERIAL_SPI_UBBRVAL(Baud)
       ((Baud < (F_CPU / 2)) ? ((F_CPU / (2 * Baud)) - 1) : 0)]
    evaluated in [unsigned long] (32 bits); [None] is the division by
    zero. *)
Definition SERIAL_SPI_UBBRVAL (Baud : Z) : option Z :=
  if Baud <? F_CPU / 2 then
    let d := u32 (2 * Baud) in
    if d =? 0 then None else Some (u32 (F_CPU / d - 1))
  else Some 0.

Definition xspi_usart_master_init (port usart : ptr) (mode : SPI_MODE_t)
    (baudrate : Z) : M hw unit :=
  ubbrval <- eval (SERIAL_SPI_UBBRVAL baudrate) ;;
  let baudval := u16 ubbrval in
  reg_write (Usart usart USART_t.BAUDCTRLB) (Z.shiftr baudval 8) ;;
  reg_write (Usart usart USART_t.BAUDCTRLA) (Z.land baudval 255) ;;
  reg_write (Usart usart USART_t.CTRLC) (USART_CMODE_MSPI_gc .| mode) ;;
  reg_write (Usart usart USART_t.CTRLB) (USART_RXEN_bm .| USART_TXEN_bm).

Definition xspi_usart_transfer_byte (fuel : nat) (usart : ptr) (val : Z)
    : M hw Z :=
  reg_write (Usart usart USART_t.DATA) val ;;
  spin_until fuel (Usart usart USART_t.STATUS) USART_TXCIF_bm ;;
  reg_write (Usart usart USART_t.STATUS) USART_TXCIF_bm ;;
  reg_read (Usart usart USART_t.DATA).

Definition xspi_usart_send_byte (fuel : nat) (usart : ptr) (val : Z)
    : M hw unit :=
  spin_until fuel (Usart usart USART_t.STATUS) USART_DREIF_bm ;;
  reg_write (Usart usart USART_t.DATA) val.

Definition xspi_usart_get_byte (fuel : nat) (usart : ptr) : M hw Z :=
  xspi_usart_transfer_byte fuel usart 255.

Fixpoint usart_send_loop (fuel : nat) (usart : ptr) (data : list Z)
    (i : nat) (len : nat) : M hw unit :=
  match len with
  | O => ret tt
  | S len' =>
      b <- eval (data !! i) ;;
      xspi_usart_send_byte fuel usart b ;;
      usart_send_loop fuel usart data (S i) len'
  end.

Definition xspi_usart_send_packet (fuel : nat) (usart : ptr)
    (data : list Z) (len : Z) : M hw unit :=
  usart_send_loop fuel usart data 0 (Z.to_nat (u8 len)).



End Driver.

(** ** Shapes of traces and hardware behaviours used in the statements *)

(** The bytes stored to the data register of one SPI unit, in order. *)
Definition data_writes (spi : ptr) (t : list event) : list Z :=
  flat_map (fun e =>
    match e with
    | Wr (Spi p SPI_t.DATA) v => if N.eqb p spi then [v] else []
    | _ => []
    end) t.

Definition is_read (e : event) : bool :=
  match e with Rd _ _ => true | Wr _ _ => false end.

Definition touches_port (e : event) : bool :=
  match e with
  | Rd (Port _ _) _ | Wr (Port _ _) _ => true
  | _ => false
  end.

Definition writes_status (e : event) : bool :=
  match e with
  | Wr (Spi _ SPI_t.STATUS) _ | Wr (Usart _ USART_t.STATUS) _ => true
  | _ => false
  end.

(** A completed busy-wait on bit [mask] of register [r]: polls that see
    the bit clear, then one poll that sees it set. *)
Inductive waits (r : register) (mask : Z) : list event -> Prop :=
| waits_seen s : Z.land s mask <> 0 -> waits r mask [Rd r s]
| waits_again s t :
    Z.land s mask = 0 -> waits r mask t -> waits r mask (Rd r s :: t).

Section Shapes.

Context `{AvrIo} {hw : Type} `{Hardware hw}.

(** [transfers spi bs t]: [t] sends the bytes [bs] one after the other,
    each store to DATA followed by its own completed wait. *)
Inductive transfers (spi : ptr) : list Z -> list event -> Prop :=
| transfers_nil : transfers spi [] []
| transfers_cons b bs w t :
    waits (Spi spi SPI_t.STATUS) SPI_IF_bm w ->
    transfers spi bs t ->
    transfers spi (b :: bs) (Wr (Spi spi SPI_t.DATA) b :: w ++ t).

(** [exchanges spi vs bs t]: [t] is a sequence of full exchanges, each a
    store of the next byte of [vs] to DATA, a completed wait, and a load
    from DATA that returns the next byte of [bs]. *)
Inductive exchanges (spi : ptr) : list Z -> list Z -> list event -> Prop :=
| exchanges_nil : exchanges spi [] [] []
| exchanges_cons v vs b bs w t :
    waits (Spi spi SPI_t.STATUS) SPI_IF_bm w ->
    exchanges spi vs bs t ->
    exchanges spi (v :: vs) (b :: bs)
      (Wr (Spi spi SPI_t.DATA) v :: w ++ Rd (Spi spi SPI_t.DATA) b :: t).

(** [completes r mask k h h']: polling [r] from state [h], bit [mask] is
    seen set for the first time at poll number [k] (counting from 0), and
    that poll leaves the hardware in [h']. *)
Inductive completes (r : register) (mask : Z) : nat -> hw -> hw -> Prop :=
| completes_now h :
    Z.land (u8 (fst (hw_read r h))) mask <> 0 ->
    completes r mask 0 h (snd (hw_read r h))
| completes_later k h h' :
    Z.land (u8 (fst (hw_read r h))) mask = 0 ->
    completes r mask k (snd (hw_read r h)) h' ->
    completes r mask (S k) h h'.

(** [accepts fuel spi bs h]: from state [h], each of the transfers started
    by storing the bytes [bs] to DATA one after the other completes within
    [fuel] polls of STATUS. *)
Inductive accepts (fuel : nat) (spi : ptr) : list Z -> hw -> Prop :=
| accepts_nil h : accepts fuel spi [] h
| accepts_cons b bs h k h1 :
    (k < fuel)%nat ->
    completes (Spi spi SPI_t.STATUS) SPI_IF_bm k
      (hw_write (Spi spi SPI_t.DATA) b h) h1 ->
    accepts fuel spi bs h1 ->
    accepts fuel spi (b :: bs) h.

(** MOSI wired to MISO: once the transfer started by storing [v] to DATA
    in state [h] has completed, DATA reads [v]. *)
Definition echoes (spi : ptr) (h : hw) (v : Z) : Prop :=
  forall k h',
    completes (Spi spi SPI_t.STATUS) SPI_IF_bm k
      (hw_write (Spi spi SPI_t.DATA) v h) h' ->
    fst (hw_read (Spi spi SPI_t.DATA) h') = v.


(** The value the direction register of a port reads as. *)
Definition dir_of (port : ptr) (h : hw) : Z :=
  fst (hw_read (Port port PORT_t.DIR) h).

(** Storing a mask to DIRSET turns the masked pins into outputs. *)
Definition dirset_sets (port : ptr) : Prop :=
  forall h v, dir_of port (hw_write (Port port PORT_t.DIRSET) v h)
              = Z.lor (dir_of port h) v.

(** Stores to the registers of an SPI unit leave what the port registers
    read as alone; so do stores to the registers of a USART. *)
Definition spi_writes_spare_ports : Prop :=
  forall h s f v p g,
    fst (hw_read (Port p g) (hw_write (Spi s f) v h))
    = fst (hw_read (Port p g) h).

Definition usart_writes_spare_ports : Prop :=
  forall h u f v p g,
    fst (hw_read (Port p g) (hw_write (Usart u f) v h))
    = fst (hw_read (Port p g) h).

(** A pin number is a bit position of an 8-bit port. *)
Definition valid_pin (n : Z) : Prop := 0 <= n <= 7.

(** The pins [xspi_master_init] drives. *)
Definition master_pins_valid (c : xspi_config_t) : Prop :=
  valid_pin (mosi_pin c) /\ valid_pin (sck_pin c) /\ valid_pin (ss_pin c).

(** The SPI control bit masks of <avr/io.h> are masks of an 8-bit
    register. *)
Definition spi_masks_u8 : Prop :=
  is_u8 SPI_ENABLE_bm /\ is_u8 SPI_MASTER_bm /\
  is_u8 SPI_CLK2X_bm /\ is_u8 SPI_DORD_bm.




End Shapes.

(** ** A simulated board

    Ports with their direction and output registers, SPI units and USARTs
    in master SPI mode.  A transfer takes [latency] polls of the status
    register; the byte shifted in comes from the wire: the byte just sent
    when MOSI is connected to MISO, the next byte of a slave's answer
    otherwise (an idle line reads as all ones). *)

Module Sim.

Inductive wiring :=
| Loopback
| Slave (miso : list Z).

Record shifter := {
  flag : bool;
  busy : option (nat * Z);
  rx : Z;
  line : wiring;
  sent : list Z
}.

Record board := {
  latency : nat;
  dirs : ptr -> Z;
  outs : ptr -> Z;
  spis : ptr -> shifter;
  usarts : ptr -> shifter;
  plain : register -> Z
}.

#[export] Instance xmega : AvrIo := {|
  SPI_ENABLE_bm := 0x40;
  SPI_MASTER_bm := 0x10;
  SPI_CLK2X_bm := 0x80;
  SPI_DORD_bm := 0x20;
  SPI_IF_bm := 0x80;
  USART_TXCIF_bm := 0x40;
  USART_DREIF_bm := 0x20;
  USART_RXEN_bm := 0x10;
  USART_TXEN_bm := 0x08;
  USART_CMODE_MSPI_gc := 0xC0
|}.

#[export] Instance clock : Config := {| F_CPU := 32000000 |}.

Definition incoming (v : Z) (l : wiring) : Z * wiring :=
  match l with
  | Loopback => (v, Loopback)
  | Slave [] => (255, Slave [])
  | Slave (b :: bs) => (b, Slave bs)
  end.

Definition start (lat : nat) (v : Z) (s : shifter) : shifter :=
  let '(b, l) := incoming v (line s) in
  {| flag := false; busy := Some (lat, b); rx := rx s; line := l;
     sent := sent s ++ [v] |}.

Definition tick (s : shifter) : shifter :=
  match busy s with
  | None => s
  | Some (O, b) =>
      {| flag := true; busy := None; rx := b; line := line s;
         sent := sent s |}
  | Some (S n, b) =>
      {| flag := false; busy := Some (n, b); rx := rx s; line := line s;
         sent := sent s |}
  end.

Definition lower (s : shifter) : shifter :=
  {| flag := false; busy := busy s; rx := rx s; line := line s;
     sent := sent s |}.

Definition upd {A} (f : ptr -> A) (p : ptr) (a : A) : ptr -> A :=
  fun q => if N.eqb q p then a else f q.

Definition reg_eqb (r r' : register) : bool :=
  match r, r' with
  | Spi p f, Spi p' f' =>
      N.eqb p p' &&
      match f, f' with
      | SPI_t.CTRL, SPI_t.CTRL | SPI_t.INTCTRL, SPI_t.INTCTRL
      | SPI_t.STATUS, SPI_t.STATUS | SPI_t.DATA, SPI_t.DATA => true
      | _, _ => false
      end
  | Usart p f, Usart p' f' =>
      N.eqb p p' &&
      match f, f' with
      | USART_t.DATA, USART_t.DATA | USART_t.STATUS, USART_t.STATUS
      | USART_t.CTRLA, USART_t.CTRLA | USART_t.CTRLB, USART_t.CTRLB
      | USART_t.CTRLC, USART_t.CTRLC
      | USART_t.BAUDCTRLA, USART_t.BAUDCTRLA
      | USART_t.BAUDCTRLB, USART_t.BAUDCTRLB => true
      | _, _ => false
      end
  | _, _ => false
  end.

Definition set_dir (p : ptr) (v : Z) (b : board) : board :=
  {| latency := latency b; dirs := upd (dirs b) p v; outs := outs b;
     spis := spis b; usarts := usarts b; plain := plain b |}.

Definition set_out (p : ptr) (v : Z) (b : board) : board :=
  {| latency := latency b; dirs := dirs b; outs := upd (outs b) p v;
     spis := spis b; usarts := usarts b; plain := plain b |}.

Definition set_spi (p : ptr) (s : shifter) (b : board) : board :=
  {| latency := latency b; dirs := dirs b; outs := outs b;
     spis := upd (spis b) p s; usarts := usarts b; plain := plain b |}.

Definition set_usart (p : ptr) (s : shifter) (b : board) : board :=
  {| latency := latency b; dirs := dirs b; outs := outs b;
     spis := spis b; usarts := upd (usarts b) p s; plain := plain b |}.

Definition set_plain (r : register) (v : Z) (b : board) : board :=
  {| latency := latency b; dirs := dirs b; outs := outs b;
     spis := spis b; usarts := usarts b;
     plain := fun r' => if reg_eqb r' r then v else plain b r' |}.

Definition write (r : register) (v : Z) (b : board) : board :=
  match r with
  | Port p PORT_t.DIR => set_dir p v b
  | Port p PORT_t.DIRSET => set_dir p (Z.lor (dirs b p) v) b
  | Port p PORT_t.DIRCLR => set_dir p (Z.ldiff (dirs b p) v) b
  | Port p PORT_t.DIRTGL => set_dir p (Z.lxor (dirs b p) v) b
  | Port p PORT_t.OUT => set_out p v b
  | Port p PORT_t.OUTSET => set_out p (Z.lor (outs b p) v) b
  | Port p PORT_t.OUTCLR => set_out p (Z.ldiff (outs b p) v) b
  | Port p PORT_t.OUTTGL => set_out p (Z.lxor (outs b p) v) b
  | Port p PORT_t.IN => b
  | Spi p SPI_t.DATA => set_spi p (start (latency b) v (spis b p)) b
  | Spi p SPI_t.STATUS => b
  | Usart p USART_t.DATA => set_usart p (start (latency b) v (usarts b p)) b
  | Usart p USART_t.STATUS =>
      if Z.land v USART_TXCIF_bm =? 0 then b
      else set_usart p (lower (usarts b p)) b
  | _ => set_plain r v b
  end.

Definition read (r : register) (b : board) : Z * board :=
  match r with
  | Port p (PORT_t.DIR | PORT_t.DIRSET | PORT_t.DIRCLR | PORT_t.DIRTGL) =>
      (dirs b p, b)
  | Port p (PORT_t.OUT | PORT_t.OUTSET | PORT_t.OUTCLR | PORT_t.OUTTGL) =>
      (outs b p, b)
  | Port p PORT_t.IN => (0, b)
  | Spi p SPI_t.STATUS =>
      let s := tick (spis b p) in
      (if flag s then SPI_IF_bm else 0, set_spi p s b)
  | Spi p SPI_t.DATA => (rx (spis b p), set_spi p (lower (spis b p)) b)
  | Usart p USART_t.STATUS =>
      let s := tick (usarts b p) in
      (USART_DREIF_bm .| (if flag s then USART_TXCIF_bm else 0),
       set_usart p s b)
  | Usart p USART_t.DATA => (rx (usarts b p), b)
  | _ => (plain b r, b)
  end.

#[export] Instance simulated : Hardware board :=
  {| hw_read := read; hw_write := write |}.

Definition idle (l : wiring) : shifter :=
  {| flag := false; busy := None; rx := 0; line := l; sent := [] |}.

(** A board after reset: every pin an input, every register zero, the SPI
    units wired as [l], the USARTs looped back. *)
Definition reset (lat : nat) (l : wiring) : board :=
  {| latency := lat; dirs := fun _ => 0; outs := fun _ => 0;
     spis := fun _ => idle l; usarts := fun _ => idle Loopback;
     plain := fun _ => 0 |}.

(** The SPI unit on port C of an ATxmega, with its pins. *)
Definition SPIC : ptr := 0x08C0%N.
Definition PORTC : ptr := 0x0640%N.
Definition USARTC0 : ptr := 0x08A0%N.

Definition binding : xspi_config_t :=
  {| spi := SPIC; port := PORTC;
     mosi_pin := 5; miso_pin := 6; sck_pin := 7; ss_pin := 4 |}.

End Sim.

(** ** Further shapes, for the functions beside the ones above *)

(** The bytes stored to the data register of one USART, in order. *)
Definition usart_data_writes (usart : ptr) (t : list event) : list Z :=
  flat_map (fun e =>
    match e with
    | Wr (Usart p USART_t.DATA) v => if N.eqb p usart then [v] else []
    | _ => []
    end) t.

(** The access is to the DATA or the STATUS register of SPI unit [spi]. *)
Definition on_spi (spi : ptr) (e : event) : bool :=
  match e with
  | Rd (Spi p (SPI_t.DATA | SPI_t.STATUS)) _
  | Wr (Spi p (SPI_t.DATA | SPI_t.STATUS)) _ => N.eqb p spi
  | _ => false
  end.

(** The access is a load from a data register. *)
Definition loads_data (e : event) : bool :=
  match e with
  | Rd (Spi _ SPI_t.DATA) _ | Rd (Usart _ USART_t.DATA) _ => true
  | _ => false
  end.

Section MoreShapes.

Context `{AvrIo} {hw : Type} `{Hardware hw}.

(** None of the next [fuel] polls of [r] sees bit [mask] set. *)
Fixpoint polls_clear (fuel : nat) (r : register) (mask : Z) (h : hw) : bool :=
  match fuel with
  | O => true
  | S fuel' =>
      (Z.land (u8 (fst (hw_read r h))) mask =? 0)
      && polls_clear fuel' r mask (snd (hw_read r h))
  end.

(** Storing a mask to DIRCLR turns the masked pins into inputs. *)
Definition dirclr_clears (port : ptr) : Prop :=
  forall h v, dir_of port (hw_write (Port port PORT_t.DIRCLR) v h)
              = Z.ldiff (dir_of port h) v.

(** [usart_sends usart bs t]: [t] queues the bytes [bs] one after the
    other, each store to DATA preceded by its own completed wait for the
    data register to be empty. *)
Inductive usart_sends (usart : ptr) : list Z -> list event -> Prop :=
| usart_sends_nil : usart_sends usart [] []
| usart_sends_cons b bs w t :
    waits (Usart usart USART_t.STATUS) USART_DREIF_bm w ->
    usart_sends usart bs t ->
    usart_sends usart (b :: bs) (w ++ Wr (Usart usart USART_t.DATA) b :: t).

(** [usart_ready fuel usart bs h]: from state [h], before each of the
    bytes [bs] is stored the data register is seen empty within [fuel]
    polls. *)
Inductive usart_ready (fuel : nat) (usart : ptr) : list Z -> hw -> Prop :=
| usart_ready_nil h : usart_ready fuel usart [] h
| usart_ready_cons b bs h k h1 :
    (k < fuel)%nat ->
    completes (Usart usart USART_t.STATUS) USART_DREIF_bm k h h1 ->
    usart_ready fuel usart bs (hw_write (Usart usart USART_t.DATA) b h1) ->
    usart_ready fuel usart (b :: bs) h.



End MoreShapes.

(** ** Runs on the hardware

    The shapes above describe the accesses alone.  The relations below
    tie them to the hardware: every load returns what [hw_read] gives in
    the state reached so far, every store goes through [hw_write], and the
    state the run ends in is the one these accesses lead to. *)

Section RunShapes.

Context `{AvrIo} {hw : Type} `{Hardware hw}.

(** [polled r mask h h' w]: the busy-wait on bit [mask] of [r] entered in
    state [h] performs the loads [w], the last of which is the first to
    see the bit set, and leaves the hardware in [h']. *)
Inductive polled (r : register) (mask : Z) : hw -> hw -> list event -> Prop :=
| polled_seen h :
    Z.land (u8 (fst (hw_read r h))) mask <> 0 ->
    polled r mask h (snd (hw_read r h)) [Rd r (u8 (fst (hw_read r h)))]
| polled_again h h' w :
    Z.land (u8 (fst (hw_read r h))) mask = 0 ->
    polled r mask (snd (hw_read r h)) h' w ->
    polled r mask h h' (Rd r (u8 (fst (hw_read r h))) :: w).

(** [spi_sent spi bs h h' t]: starting in [h], each byte of [bs] in turn is
    stored to DATA and the completion flag is polled until seen; [t] are
    the accesses and [h'] the state after the last wait. *)
Inductive spi_sent (spi : ptr) : list Z -> hw -> hw -> list event -> Prop :=
| spi_sent_nil h : spi_sent spi [] h h []
| spi_sent_cons b bs h h1 h' w t :
    polled (Spi spi SPI_t.STATUS) SPI_IF_bm
      (hw_write (Spi spi SPI_t.DATA) b h) h1 w ->
    spi_sent spi bs h1 h' t ->
    spi_sent spi (b :: bs) h h' (Wr (Spi spi SPI_t.DATA) b :: w ++ t).

(** [received spi bs h h' t]: starting in [h], for each byte of [bs] in
    turn 0xFF is stored to DATA, the completion flag is polled until seen,
    and the byte is what the load from DATA then returns. *)
Inductive received (spi : ptr) : list Z -> hw -> hw -> list event -> Prop :=
| received_nil h : received spi [] h h []
| received_cons b bs h h1 h2 h' w t :
    polled (Spi spi SPI_t.STATUS) SPI_IF_bm
      (hw_write (Spi spi SPI_t.DATA) 255 h) h1 w ->
    b = u8 (fst (hw_read (Spi spi SPI_t.DATA) h1)) ->
    h2 = snd (hw_read (Spi spi SPI_t.DATA) h1) ->
    received spi bs h2 h' t ->
    received spi (b :: bs) h h'
      (Wr (Spi spi SPI_t.DATA) 255 :: w ++ Rd (Spi spi SPI_t.DATA) b :: t).

(** [usart_sent usart bs h h' t]: starting in [h], for each byte of [bs]
    in turn the data-register-empty flag is polled until seen and the
    byte is then stored to DATA. *)
Inductive usart_sent (usart : ptr)
  : list Z -> hw -> hw -> list event -> Prop :=
| usart_sent_nil h : usart_sent usart [] h h []
| usart_sent_cons b bs h h1 h' w t :
    polled (Usart usart USART_t.STATUS) USART_DREIF_bm h h1 w ->
    usart_sent usart bs (hw_write (Usart usart USART_t.DATA) b h1) h' t ->
    usart_sent usart (b :: bs) h h'
      (w ++ Wr (Usart usart USART_t.DATA) b :: t).

End RunShapes.

(** ** Basic facts about executions and fixed-width arithmetic *)

Section Basics.

Context {hw A : Type}.

Lemma after_nil (o : outcome hw A) : after [] o = o.
Proof. destruct o; reflexivity. Qed.

Lemma trace_of_after t (o : outcome hw A) :
  trace_of (after t o) = t ++ trace_of o.
Proof. destruct o; reflexivity. Qed.

Lemma state_of_after t (o : outcome hw A) : state_of (after t o) = state_of o.
Proof. destruct o; reflexivity. Qed.

Lemma returns_after t (o : outcome hw A) : returns (after t o) = returns o.
Proof. destruct o; reflexivity. Qed.

Lemma is_undefined_after t (o : outcome hw A) :
  is_undefined (after t o) = is_undefined o.
Proof. destruct o; reflexivity. Qed.

Lemma after_Done_inv t (o : outcome hw A) a h' t' :
  after t o = Done a h' t' -> exists t0, o = Done a h' t0 /\ t' = t ++ t0.
Proof. destruct o; simpl; intros E; inversion E; subst; eauto. Qed.

End Basics.

Lemma u8_small z : is_u8 z -> u8 z = z.
Proof. unfold is_u8, u8. intros Hz. apply Z.mod_small. exact Hz. Qed.

Lemma u8_is_u8 z : is_u8 (u8 z).
Proof. unfold is_u8, u8. apply Z.mod_pos_bound. reflexivity. Qed.

Lemma u8_land_ones z : u8 z = Z.land z (Z.ones 8).
Proof. unfold u8. symmetry. apply Z.land_ones. lia. Qed.

Lemma u8_lor a b : u8 (a .| b) = u8 a .| u8 b.
Proof. rewrite !u8_land_ones. apply Z.land_lor_distr_l. Qed.

Lemma lor_is_u8 a b : is_u8 a -> is_u8 b -> is_u8 (a .| b).
Proof.
  intros Ha Hb. rewrite <- (u8_small a Ha), <- (u8_small b Hb), <- u8_lor.
  apply u8_is_u8.
Qed.

Lemma shl1_valid n : valid_pin n -> shl1 n = Some (Z.shiftl 1 n).
Proof.
  unfold valid_pin, shl1. intros Hn.
  destruct (Z.leb_spec 0 n); [|lia]. destruct (Z.ltb_spec n 15); [|lia].
  reflexivity.
Qed.

Lemma pin_bit_is_u8 n : valid_pin n -> is_u8 (Z.shiftl 1 n).
Proof.
  unfold valid_pin, is_u8. intros Hn. rewrite Z.shiftl_1_l. split.
  - apply Z.pow_nonneg. lia.
  - apply Z.pow_lt_mono_r; lia.
Qed.

Lemma pin_bit_testbit n i :
  0 <= n -> Z.testbit (Z.shiftl 1 n) i = (i =? n).
Proof.
  intros Hn. rewrite Z.shiftl_1_l. destruct (Z.eqb_spec i n) as [->|Hne].
  - apply Z.pow2_bits_true. exact Hn.
  - apply Z.pow2_bits_false. congruence.
Qed.

Section InitTheory.

Context `{AvrIo} `{Config} {hw : Type} `{Hardware hw}.

(** C1.  On a binding whose pins are bit positions of the port, and with
    8-bit masks and enumerators, [xspi_master_init] returns after exactly
    two stores and no load: the pin mask to DIRSET, then to CTRL the
    bitwise OR of the enable bit, the master bit, the mode, the prescaler,
    the double-speed bit when [clk2x] and the bit-order bit when [lsb].  A
    bit of the stored value is set only if one of those sets it, and the
    value does not depend on the hardware state the call starts from. *)
Theorem master_init_ctrl_value
    (config : xspi_config_t) (mode : SPI_MODE_t) (lsb : bool)
    (prescaler : SPI_PRESCALER_t) (clk2x : bool) (h : hw) :
  master_pins_valid config -> spi_masks_u8 ->
  is_u8 mode -> is_u8 prescaler ->
  let ctrl :=
    SPI_ENABLE_bm .| SPI_MASTER_bm .| mode .| prescaler .|
    (if clk2x then SPI_CLK2X_bm else 0) .| (if lsb then SPI_DORD_bm else 0) in
  let pins :=
    Z.shiftl 1 (mosi_pin config) .| Z.shiftl 1 (sck_pin config) .|
    Z.shiftl 1 (ss_pin config) in
  xspi_master_init config mode lsb prescaler clk2x h
  = Done tt
      (hw_write (Spi (spi config) SPI_t.CTRL) ctrl
         (hw_write (Port (port config) PORT_t.DIRSET) pins h))
      [Wr (Port (port config) PORT_t.DIRSET) pins;
       Wr (Spi (spi config) SPI_t.CTRL) ctrl]
  /\ (forall i,
        Z.testbit ctrl i
        = Z.testbit SPI_ENABLE_bm i || Z.testbit SPI_MASTER_bm i
          || Z.testbit mode i || Z.testbit prescaler i
          || (clk2x && Z.testbit SPI_CLK2X_bm i)
          || (lsb && Z.testbit SPI_DORD_bm i))
  /\ (forall h2 : hw,
        trace_of (xspi_master_init config mode lsb prescaler clk2x h2)
        = trace_of (xspi_master_init config mode lsb prescaler clk2x h)).
Proof.
  intros (Hmosi & Hsck & Hss) (Hen & Hma & Hcl & Hdo) Hmode Hpre ctrl pins.
  assert (Hctrl : u8 ctrl = ctrl).
  { apply u8_small. unfold ctrl.
    repeat apply lor_is_u8; try assumption.
    - destruct clk2x; [assumption | unfold is_u8; lia].
    - destruct lsb; [assumption | unfold is_u8; lia]. }
  assert (Hpins : u8 pins = pins).
  { apply u8_small. unfold pins.
    repeat apply lor_is_u8; apply pin_bit_is_u8; assumption. }
  assert (Hrun : forall h0 : hw,
    xspi_master_init config mode lsb prescaler clk2x h0
    = Done tt
        (hw_write (Spi (spi config) SPI_t.CTRL) ctrl
           (hw_write (Port (port config) PORT_t.DIRSET) pins h0))
        [Wr (Port (port config) PORT_t.DIRSET) pins;
         Wr (Spi (spi config) SPI_t.CTRL) ctrl]).
  { intros h0. unfold xspi_master_init, bind.
    rewrite !shl1_valid by assumption. simpl.
    unfold reg_write. fold pins. fold ctrl. rewrite Hctrl, Hpins.
    reflexivity. }
  split; [apply Hrun|]. split.
  - intros i. unfold ctrl. rewrite !Z.lor_spec.
    destruct clk2x, lsb; simpl; rewrite ?Z.bits_0, ?orb_false_r; reflexivity.
  - intros h2. rewrite !Hrun. reflexivity.
Qed.

(** C5.  On hardware where a store to DIRSET turns the masked pins into
    outputs and stores to SPI registers do not disturb the port, the
    direction register after [xspi_master_init] has the MOSI, SCK and SS
    bits set and every other bit as it was before the call. *)
Theorem master_init_direction
    (config : xspi_config_t) (mode : SPI_MODE_t) (lsb : bool)
    (prescaler : SPI_PRESCALER_t) (clk2x : bool) (h : hw) :
  master_pins_valid config ->
  dirset_sets (port config) -> spi_writes_spare_ports ->
  let o := xspi_master_init config mode lsb prescaler clk2x h in
  returns o = true /\
  forall i,
    Z.testbit (dir_of (port config) (state_of o)) i
    = if (i =? mosi_pin config) || (i =? sck_pin config)
         || (i =? ss_pin config)
      then true
      else Z.testbit (dir_of (port config) h) i.
Proof.
  intros (Hmosi & Hsck & Hss) Hset Hframe o.
  assert (Hpins : u8 (Z.shiftl 1 (mosi_pin config) .|
                      Z.shiftl 1 (sck_pin config) .|
                      Z.shiftl 1 (ss_pin config))
                  = Z.shiftl 1 (mosi_pin config) .|
                    Z.shiftl 1 (sck_pin config) .|
                    Z.shiftl 1 (ss_pin config)).
  { apply u8_small. repeat apply lor_is_u8; apply pin_bit_is_u8; assumption. }
  subst o. unfold xspi_master_init, bind.
  rewrite !shl1_valid by assumption. simpl. split; [reflexivity|].
  intros i. unfold dirset_sets, dir_of in *. rewrite Hframe.
  rewrite Hset, Hpins, !Z.lor_spec.
  unfold valid_pin in *.
  rewrite !pin_bit_testbit by lia.
  destruct (i =? mosi_pin config), (i =? sck_pin config),
    (i =? ss_pin config),
    (Z.testbit (fst (hw_read (Port (port config) PORT_t.DIR) h)) i);
    reflexivity.
Qed.

(** The macro never wraps around: below [F_CPU / 2] the quotient is at
    least one and fits 32 bits. *)
Lemma SERIAL_SPI_UBBRVAL_value (Baud : Z) :
  is_u32 F_CPU -> 0 < Baud ->
  SERIAL_SPI_UBBRVAL Baud
  = Some (if Baud <? F_CPU / 2 then F_CPU / (2 * Baud) - 1 else 0)
  /\ (Baud < F_CPU / 2 -> 1 <= F_CPU / (2 * Baud) < 2 ^ 32).
Proof.
  unfold is_u32, SERIAL_SPI_UBBRVAL. intros HF HB.
  destruct (Z.ltb_spec Baud (F_CPU / 2)) as [Hlt|Hge].
  - assert (H2 : 2 * Baud < F_CPU).
    { pose proof (Z.mul_div_le F_CPU 2 ltac:(lia)). lia. }
    assert (Hq : 1 <= F_CPU / (2 * Baud) < 2 ^ 32).
    { split.
      - apply Z.div_le_lower_bound; lia.
      - apply Z.div_lt_upper_bound; [lia|]. nia. }
    assert (Hd : u32 (2 * Baud) = 2 * Baud).
    { unfold u32. apply Z.mod_small. lia. }
    rewrite Hd. destruct (Z.eqb_spec (2 * Baud) 0); [lia|].
    split; [|intros _; exact Hq].
    f_equal. unfold u32. apply Z.mod_small. lia.
  - split; [reflexivity | lia].
Qed.

(** C2.  For a 32-bit base clock and a baud rate [B > 0],
    [xspi_usart_master_init] returns, and the value it splits over the two
    baud registers is [F_CPU / (2 * B) - 1] when [B < F_CPU / 2] and [0]
    otherwise, reduced modulo [2 ^ 16]: its high byte is stored to
    BAUDCTRLB first, its low byte to BAUDCTRLA next.  The hardware is
    left in the state these two stores, followed by the stores to CTRLC
    and CTRLB, lead to. *)
Theorem usart_master_init_baud
    (port usart : ptr) (mode : SPI_MODE_t) (baudrate : Z) (h : hw) :
  is_u32 F_CPU -> 0 < baudrate < 2 ^ 32 ->
  let divisor :=
    if baudrate <? F_CPU / 2 then F_CPU / (2 * baudrate) - 1 else 0 in
  let baudval := divisor mod 2 ^ 16 in
  0 <= divisor /\
  (divisor <= 65535 -> baudval = divisor) /\
    xspi_usart_master_init port usart mode baudrate h
    = Done tt
        (hw_write (Usart usart USART_t.CTRLB)
           (u8 (USART_RXEN_bm .| USART_TXEN_bm))
           (hw_write (Usart usart USART_t.CTRLC)
              (u8 (USART_CMODE_MSPI_gc .| mode))
              (hw_write (Usart usart USART_t.BAUDCTRLA) (baudval mod 2 ^ 8)
                 (hw_write (Usart usart USART_t.BAUDCTRLB)
                    (baudval / 2 ^ 8) h))))
        [Wr (Usart usart USART_t.BAUDCTRLB) (baudval / 2 ^ 8);
         Wr (Usart usart USART_t.BAUDCTRLA) (baudval mod 2 ^ 8);
         Wr (Usart usart USART_t.CTRLC) (u8 (USART_CMODE_MSPI_gc .| mode));
         Wr (Usart usart USART_t.CTRLB) (u8 (USART_RXEN_bm .| USART_TXEN_bm))].
Proof.
  intros HF HB divisor baudval.
  destruct (SERIAL_SPI_UBBRVAL_value baudrate HF ltac:(lia)) as [Hval Hq].
  fold divisor in Hval.
  assert (Hdiv : 0 <= divisor).
  { unfold divisor. destruct (Z.ltb_spec baudrate (F_CPU / 2)); [|lia].
    specialize (Hq ltac:(assumption)). lia. }
  assert (Hbv : 0 <= baudval < 2 ^ 16) by (apply Z.mod_pos_bound; lia).
  split; [exact Hdiv|]. split.
  { intros Hle. apply Z.mod_small. lia. }
  unfold xspi_usart_master_init, bind. rewrite Hval. simpl.
  unfold reg_write. fold (u16 divisor). change (u16 divisor) with baudval.
  assert (Hhi : u8 (Z.shiftr baudval 8) = baudval / 2 ^ 8).
  { rewrite Z.shiftr_div_pow2 by lia. apply u8_small. unfold is_u8. split.
    - apply Z.div_pos; lia.
    - apply Z.div_lt_upper_bound; lia. }
  assert (Hlo : u8 (Z.land baudval 255) = baudval mod 2 ^ 8).
  { change 255 with (Z.ones 8). rewrite Z.land_ones by lia.
    apply u8_small. apply (u8_is_u8 baudval). }
  rewrite Hhi, Hlo. reflexivity.
Qed.

(** C10.  With a base clock of at least 2 Hz that fits 32 bits, the call
    runs into the division by zero of [SERIAL_SPI_UBBRVAL] exactly when
    the baud rate is 0; for every other 32-bit baud rate the macro has a
    value.  The division by zero happens before any register access. *)
Theorem usart_master_init_undefined_iff
    (port usart : ptr) (mode : SPI_MODE_t) (baudrate : Z) (h : hw) :
  2 <= F_CPU < 2 ^ 32 -> is_u32 baudrate ->
  (SERIAL_SPI_UBBRVAL baudrate = None <-> baudrate = 0) /\
  (is_undefined (xspi_usart_master_init port usart mode baudrate h) = true
   <-> baudrate = 0) /\
  (baudrate = 0 ->
   xspi_usart_master_init port usart mode baudrate h = Undefined h []).
Proof.
  intros HF HB. unfold is_u32 in HB.
  assert (Hzero : SERIAL_SPI_UBBRVAL 0 = None).
  { unfold SERIAL_SPI_UBBRVAL.
    destruct (Z.ltb_spec 0 (F_CPU / 2)) as [_|Hge]; [reflexivity|].
    assert (1 <= F_CPU / 2) by (apply Z.div_le_lower_bound; lia). lia. }
  assert (Hpos : 0 < baudrate -> exists d, SERIAL_SPI_UBBRVAL baudrate = Some d).
  { intros Hb.
    destruct (SERIAL_SPI_UBBRVAL_value baudrate ltac:(unfold is_u32; lia) Hb)
      as [-> _]. eauto. }
  split; [|split].
  - split.
    + intros Hnone. destruct (Z.eq_dec baudrate 0) as [|Hne]; [assumption|].
      destruct (Hpos ltac:(lia)) as [d Hd]. congruence.
    + intros ->. exact Hzero.
  - unfold xspi_usart_master_init, bind. split.
    + intros Hund. destruct (Z.eq_dec baudrate 0) as [|Hne]; [assumption|].
      destruct (Hpos ltac:(lia)) as [d Hd]. rewrite Hd in Hund.
      simpl in Hund. discriminate.
    + intros ->. rewrite Hzero. reflexivity.
  - intros ->. unfold xspi_usart_master_init, bind. rewrite Hzero.
    reflexivity.
Qed.

(** With a base clock below 2 Hz the comparison fails for every baud rate
    and the division is never evaluated. *)
Lemma SERIAL_SPI_UBBRVAL_slow_clock (Baud : Z) :
  0 <= F_CPU < 2 -> 0 <= Baud -> SERIAL_SPI_UBBRVAL Baud = Some 0.
Proof.
  intros HF HB. unfold SERIAL_SPI_UBBRVAL.
  assert (F_CPU / 2 = 0) as -> by (apply Z.div_small; lia).
  destruct (Z.ltb_spec Baud 0); [lia | reflexivity].
Qed.

(** C9.  No access of [xspi_usart_master_init] is to a port register,
    whatever the arguments and however the call ends; on hardware where
    stores to USART registers do not disturb the ports, every port
    register reads after the call as it did before. *)
Theorem usart_master_init_ignores_port
    (port usart : ptr) (mode : SPI_MODE_t) (baudrate : Z) (h : hw) :
  let o := xspi_usart_master_init port usart mode baudrate h in
  forallb (fun e => negb (touches_port e)) (trace_of o) = true /\
  (usart_writes_spare_ports ->
   forall p g,
     fst (hw_read (Port p g) (state_of o)) = fst (hw_read (Port p g) h)).
Proof.
  intros o. subst o. unfold xspi_usart_master_init, bind.
  destruct (SERIAL_SPI_UBBRVAL baudrate) as [d|]; simpl.
  - split; [reflexivity|]. intros Hframe p g. rewrite !Hframe. reflexivity.
  - split; [reflexivity|]. intros _ p g. reflexivity.
Qed.

(** C7.  [xspi_usart_get_byte] and [xspi_usart_transfer_byte] with the
    value 0xFF have the same outcome from every hardware state and with
    every poll budget: the same way of ending, the same returned byte,
    the same final hardware state and the same sequence of register
    accesses. *)
Theorem usart_get_byte_is_transfer_of_filler
    (fuel : nat) (usart : ptr) (h : hw) :
  xspi_usart_get_byte fuel usart h
  = xspi_usart_transfer_byte fuel usart 0xFF h.
Proof. reflexivity. Qed.

End InitTheory.

(** ** Busy-wait loops *)

Section SpinTheory.

Context `{AvrIo} `{Config} {hw : Type} `{Hardware hw}.

Lemma spin_until_completes fuel r mask k (h h' : hw) :
  completes r mask k h h' -> (k < fuel)%nat ->
  exists w, spin_until fuel r mask h = Done tt h' w /\ waits r mask w.
Proof.
  intros Hc. revert fuel.
  induction Hc as [h Hset | k h h' Hclr Hc IH]; intros [|fuel] Hk; try lia.
  - simpl. unfold bind, reg_read.
    destruct (hw_read r h) as [v h1] eqn:E. simpl in *.
    destruct (Z.eqb_spec (Z.land (u8 v) mask) 0); [contradiction|].
    simpl. eexists. split; [reflexivity|]. apply waits_seen. assumption.
  - simpl. unfold bind, reg_read.
    destruct (hw_read r h) as [v h1] eqn:E. simpl in *.
    rewrite Hclr. simpl.
    destruct (IH fuel ltac:(lia)) as (w & -> & Hw). simpl.
    eexists. split; [reflexivity|]. apply waits_again; assumption.
Qed.

Lemma spin_until_Done_inv fuel r mask (h : hw) u h' w :
  spin_until fuel r mask h = Done u h' w ->
  waits r mask w /\ exists k, (k < fuel)%nat /\ completes r mask k h h'.
Proof.
  revert h w. induction fuel as [|fuel IH]; intros h w; simpl.
  - discriminate.
  - unfold bind, reg_read.
    destruct (hw_read r h) as [v h1] eqn:E.
    destruct (Z.eqb_spec (Z.land (u8 v) mask) 0) as [Hclr|Hset].
    + intros Hrun. apply after_Done_inv in Hrun as (t0 & Hrun & ->).
      apply IH in Hrun as (Hw & k & Hk & Hc). split.
      * apply waits_again; assumption.
      * exists (S k). split; [lia|].
        apply completes_later; rewrite E; assumption.
    + simpl. intros Hrun. inversion Hrun; subst. split.
      * apply waits_seen. assumption.
      * exists O. split; [lia|].
        replace h' with (snd (hw_read r h)) by (rewrite E; reflexivity).
        apply completes_now. rewrite E. assumption.
Qed.

Lemma spin_until_polled fuel r mask : forall (h : hw) u h' w,
  spin_until fuel r mask h = Done u h' w -> polled r mask h h' w.
Proof.
  induction fuel as [|fuel IH]; intros h u h' w; simpl.
  - discriminate.
  - unfold bind, reg_read.
    destruct (hw_read r h) as [v h1] eqn:E.
    destruct (Z.eqb_spec (Z.land (u8 v) mask) 0) as [Hclr|Hset].
    + intros Hrun. apply after_Done_inv in Hrun as (t0 & Hrun & ->).
      apply IH in Hrun.
      replace v with (fst (hw_read r h)) in * by (rewrite E; reflexivity).
      replace h1 with (snd (hw_read r h)) in * by (rewrite E; reflexivity).
      simpl. apply polled_again; assumption.
    + simpl. intros Hrun. inversion Hrun; subst.
      replace v with (fst (hw_read r h)) in * by (rewrite E; reflexivity).
      replace h' with (snd (hw_read r h)) by (rewrite E; reflexivity).
      apply polled_seen. assumption.
Qed.

Lemma polled_waits r mask (h h' : hw) w :
  polled r mask h h' w -> waits r mask w.
Proof.
  induction 1; [apply waits_seen | apply waits_again]; assumption.
Qed.

(** A busy-wait only loads, and cannot run into undefined behaviour. *)
Lemma spin_until_trace fuel r mask (h : hw) :
  forallb is_read (trace_of (spin_until fuel r mask h)) = true
  /\ is_undefined (spin_until fuel r mask h) = false.
Proof.
  revert h. induction fuel as [|fuel IH]; intros h; simpl.
  - split; reflexivity.
  - unfold bind, reg_read. destruct (hw_read r h) as [v h1].
    destruct (Z.land (u8 v) mask =? 0).
    + destruct (IH h1) as [Ht Hu].
      destruct (spin_until fuel r mask h1); simpl in *;
        split; assumption || reflexivity.
    + split; reflexivity.
Qed.

Lemma waits_no_data_write spi r mask w :
  waits r mask w -> data_writes spi w = [].
Proof. induction 1; simpl; [reflexivity | assumption]. Qed.

Lemma data_writes_app spi t1 t2 :
  data_writes spi (t1 ++ t2) = data_writes spi t1 ++ data_writes spi t2.
Proof. unfold data_writes. apply flat_map_app. Qed.

Lemma transfers_data_writes spi bs t :
  transfers spi bs t -> data_writes spi t = bs.
Proof.
  induction 1 as [|b bs w t Hw Ht IH]; [reflexivity|].
  change (data_writes spi (Wr (Spi spi SPI_t.DATA) b :: w ++ t))
    with ((if N.eqb spi spi then [b] else []) ++ data_writes spi (w ++ t)).
  rewrite N.eqb_refl, data_writes_app, (waits_no_data_write _ _ _ _ Hw), IH.
  reflexivity.
Qed.


End SpinTheory.

(** ** Byte transfers *)

Section ByteTheory.

Context `{AvrIo} `{Config} {hw : Type} `{Hardware hw}.

(** C8.  On a peripheral that echoes the byte [v] stored in state [h],
    [xspi_transfer_byte] can only return [v]; and when the transfer
    completes within the poll budget it does return [v], after the store,
    the completed wait and one load from DATA. *)
Theorem transfer_byte_loopback (fuel : nat) (spi : ptr) (v : Z) (h : hw) :
  is_u8 v -> echoes spi h v ->
  (forall r h' t, xspi_transfer_byte fuel spi v h = Done r h' t -> r = v) /\
  (forall k h1,
     (k < fuel)%nat ->
     completes (Spi spi SPI_t.STATUS) SPI_IF_bm k
       (hw_write (Spi spi SPI_t.DATA) v h) h1 ->
     exists w,
       waits (Spi spi SPI_t.STATUS) SPI_IF_bm w /\
       xspi_transfer_byte fuel spi v h
       = Done v (snd (hw_read (Spi spi SPI_t.DATA) h1))
           (Wr (Spi spi SPI_t.DATA) v :: w ++ [Rd (Spi spi SPI_t.DATA) v])).
Proof.
  intros Hv Hecho. unfold echoes in Hecho. split.
  - intros r h' t. unfold xspi_transfer_byte, bind, reg_write. simpl.
    rewrite (u8_small v Hv).
    destruct (spin_until fuel (Spi spi SPI_t.STATUS) SPI_IF_bm
                (hw_write (Spi spi SPI_t.DATA) v h)) as [[] h1 w|h1 w|h1 w] eqn:E;
      simpl; try discriminate.
    apply spin_until_Done_inv in E as (_ & k & _ & Hc).
    unfold reg_read.
    destruct (hw_read (Spi spi SPI_t.DATA) h1) as [x h2] eqn:Ex. simpl.
    intros Hrun. inversion Hrun; subst.
    specialize (Hecho k h1 Hc). rewrite Ex in Hecho. simpl in Hecho.
    subst x. apply u8_small. assumption.
  - intros k h1 Hk Hc.
    destruct (spin_until_completes fuel _ _ k _ _ Hc Hk) as (w & Hrun & Hw).
    exists w. split; [assumption|].
    unfold xspi_transfer_byte, bind, reg_write. simpl.
    rewrite (u8_small v Hv), Hrun. simpl. unfold reg_read.
    specialize (Hecho k h1 Hc).
    destruct (hw_read (Spi spi SPI_t.DATA) h1) as [x h2] eqn:Ex. simpl in *.
    subst x. rewrite (u8_small v Hv). reflexivity.
Qed.


End ByteTheory.

(** ** Packets *)

Section PacketTheory.

Context `{AvrIo} `{Config} {hw : Type} `{Hardware hw}.

Lemma bind_ret {A B} (a : A) (k : A -> M hw B) (h : hw) :
  bind (ret a) k h = k a h.
Proof. unfold bind, ret. apply after_nil. Qed.

Lemma bind_reg_write {B} r v (k : unit -> M hw B) (h : hw) :
  bind (reg_write r v) k h
  = after [Wr r (u8 v)] (k tt (hw_write r (u8 v) h)).
Proof. reflexivity. Qed.

Lemma bind_Done {A B} (m : M hw A) (k : A -> M hw B) (h : hw) a h1 t :
  m h = Done a h1 t -> bind m k h = after t (k a h1).
Proof. unfold bind. intros ->. reflexivity. Qed.

Lemma bind_Hang {A B} (m : M hw A) (k : A -> M hw B) (h : hw) h1 t :
  m h = Hang h1 t -> bind m k h = Hang h1 t.
Proof. unfold bind. intros ->. reflexivity. Qed.

Lemma send_loop_spec fuel spi data n : forall i (h : hw),
  (i + n <= length data)%nat -> Forall is_u8 data ->
  let o := send_loop fuel spi data i n h in
  (forall h' t, o = Done tt h' t -> transfers spi (take n (drop i data)) t)
  /\ (accepts fuel spi (take n (drop i data)) h -> returns o = true)
  /\ is_undefined o = false.
Proof.
  induction n as [|n IH]; intros i h Hlen Hbytes o; subst o.
  - simpl. split; [|split]; try reflexivity.
    intros h' t Hrun. inversion Hrun; subst. apply transfers_nil.
  - destruct (lookup_lt_is_Some_2 data i ltac:(lia)) as [b Hb].
    assert (Hu8 : u8 b = b).
    { apply u8_small. exact (Forall_lookup_1 _ _ _ _ Hbytes Hb). }
    rewrite (drop_S _ _ _ Hb). simpl take. simpl send_loop.
    rewrite Hb. simpl eval. rewrite bind_ret, bind_reg_write, Hu8.
    pose proof (spin_until_trace fuel (Spi spi SPI_t.STATUS) SPI_IF_bm
                  (hw_write (Spi spi SPI_t.DATA) b h)) as [_ Hdef].
    destruct (spin_until fuel (Spi spi SPI_t.STATUS) SPI_IF_bm
                (hw_write (Spi spi SPI_t.DATA) b h))
      as [[] h1 w|h1 w|h1 w] eqn:E; [| |discriminate].
    + rewrite (bind_Done _ _ _ _ _ _ E).
      destruct (IH (S i) h1 ltac:(lia) Hbytes) as (IHt & IHr & IHu).
      pose proof (spin_until_Done_inv _ _ _ _ _ _ _ E) as (Hw & _).
      split; [|split].
      * intros h' t Hrun.
        apply after_Done_inv in Hrun as (t1 & Hrun & ->).
        apply after_Done_inv in Hrun as (t2 & Hrun & ->).
        simpl. apply transfers_cons; [assumption|]. eapply IHt. eassumption.
      * intros Hacc. inversion Hacc as [|b' bs' h0 k h1' Hk Hc Hrest]; subst.
        destruct (spin_until_completes fuel _ _ k _ _ Hc Hk) as (w' & E' & _).
        rewrite E in E'. inversion E'; subst.
        rewrite !returns_after. apply IHr. assumption.
      * rewrite !is_undefined_after. exact IHu.
    + rewrite (bind_Hang _ _ _ _ _ E).
      split; [|split].
      * discriminate.
      * intros Hacc. inversion Hacc as [|b' bs' h0 k h1' Hk Hc Hrest]; subst.
        destruct (spin_until_completes fuel _ _ k _ _ Hc Hk) as (w' & E' & _).
        rewrite E in E'. discriminate.
      * reflexivity.
Qed.

Lemma send_loop_sent fuel spi data n : forall i (h h' : hw) t,
  Forall is_u8 data ->
  send_loop fuel spi data i n h = Done tt h' t ->
  spi_sent spi (take n (drop i data)) h h' t.
Proof.
  induction n as [|n IH]; intros i h h' t Hbytes.
  - simpl. intros Hrun. inversion Hrun; subst. apply spi_sent_nil.
  - simpl send_loop. destruct (data !! i) as [b|] eqn:Hb.
    + assert (Hu8 : u8 b = b).
      { apply u8_small. exact (Forall_lookup_1 _ _ _ _ Hbytes Hb). }
      rewrite (drop_S _ _ _ Hb). simpl take. simpl eval.
      rewrite bind_ret, bind_reg_write, Hu8.
      destruct (spin_until fuel (Spi spi SPI_t.STATUS) SPI_IF_bm
                  (hw_write (Spi spi SPI_t.DATA) b h))
        as [[] h1 w|h1 w|h1 w] eqn:E.
      * rewrite (bind_Done _ _ _ _ _ _ E). intros Hrun.
        apply after_Done_inv in Hrun as (t1 & Hrun & ->).
        apply after_Done_inv in Hrun as (t2 & Hrun & ->).
        simpl. eapply spi_sent_cons.
        -- eapply spin_until_polled. exact E.
        -- apply IH; assumption.
      * rewrite (bind_Hang _ _ _ _ _ E). discriminate.
      * unfold bind at 1. rewrite E. discriminate.
    + simpl. discriminate.
Qed.

(** C4.  For a buffer of at least [len] bytes, a call of
    [xspi_send_packet] that returns has stored exactly the first [len]
    bytes of the buffer to DATA, in buffer order, each store followed by
    its own completed wait before the next store: every store went to the
    hardware, every poll returned what the status register read as, and
    the state the call ends in is the one after the last wait.  It
    returns whenever each of these transfers completes within the poll
    budget, and never runs into undefined behaviour.  With [len = 0] it
    returns at once, with no register access and the hardware
    untouched. *)
Theorem send_packet_sequence
    (fuel : nat) (spi : ptr) (data : list Z) (len : Z) (h : hw) :
  0 <= len < 256 -> (Z.to_nat len <= length data)%nat ->
  Forall is_u8 data ->
  let o := xspi_send_packet fuel spi data len h in
  (len = 0 -> o = Done tt h []) /\
  (forall h' t,
     o = Done tt h' t ->
     spi_sent spi (take (Z.to_nat len) data) h h' t /\
     transfers spi (take (Z.to_nat len) data) t /\
     data_writes spi t = take (Z.to_nat len) data) /\
  (accepts fuel spi (take (Z.to_nat len) data) h -> returns o = true) /\
  is_undefined o = false.
Proof.
  intros Hlen Hbuf Hbytes o. subst o. unfold xspi_send_packet.
  rewrite (u8_small len) by (unfold is_u8; lia).
  destruct (send_loop_spec fuel spi data (Z.to_nat len) 0%nat h
              ltac:(lia) Hbytes) as (Ht & Hr & Hu).
  rewrite drop_0 in Ht, Hr.
  split; [|split; [|split]].
  - intros ->. reflexivity.
  - intros h' t Hrun. specialize (Ht h' t Hrun). split; [|split].
    + rewrite <- (drop_0 data) at 1.
      apply (send_loop_sent fuel spi data (Z.to_nat len) 0%nat);
        assumption.
    + assumption.
    + eapply transfers_data_writes. eassumption.
  - assumption.
  - assumption.
Qed.



End PacketTheory.

(** ** The simulated board obeys the hardware laws used above *)

Section SimTheory.

Import Sim.

Lemma sim_spis_set p s b : spis (set_spi p s b) p = s.
Proof. simpl. unfold upd. rewrite N.eqb_refl. reflexivity. Qed.

Lemma sim_usarts_set p s b : usarts (set_usart p s b) p = s.
Proof. simpl. unfold upd. rewrite N.eqb_refl. reflexivity. Qed.

Lemma sim_dirset_sets p : dirset_sets p.
Proof.
  intros b v. unfold dir_of. simpl. unfold upd. rewrite N.eqb_refl.
  reflexivity.
Qed.

Lemma sim_spi_writes_spare_ports : spi_writes_spare_ports.
Proof. intros b s f v p g. destruct f, g; reflexivity. Qed.

Lemma sim_usart_writes_spare_ports : usart_writes_spare_ports.
Proof.
  intros b u f v p g. destruct f, g; try reflexivity;
    simpl; destruct (Z.land v 64 =? 0); reflexivity.
Qed.

(** A running transfer with [n] polls to go completes at poll [n], and
    leaves the byte shifted in in the receive register. *)
Lemma sim_spi_poll p n : forall b x,
  busy (spis b p) = Some (n, x) ->
  exists h1,
    completes (Spi p SPI_t.STATUS) SPI_IF_bm n b h1 /\
    latency h1 = latency b /\
    spis h1 p = {| flag := true; busy := None; rx := x;
                   line := line (spis b p); sent := sent (spis b p) |}.
Proof.
  induction n as [|n IH]; intros b x Hbusy.
  - exists (snd (hw_read (Spi p SPI_t.STATUS) b)). split; [|split].
    + apply completes_now. simpl. unfold tick. rewrite Hbusy. simpl.
      discriminate.
    + reflexivity.
    + simpl. unfold upd. rewrite N.eqb_refl. unfold tick. rewrite Hbusy.
      reflexivity.
  - destruct (IH (snd (hw_read (Spi p SPI_t.STATUS) b)) x)
      as (h1 & Hc & Hlat & Hs).
    { simpl. unfold upd. rewrite N.eqb_refl. unfold tick. rewrite Hbusy.
      reflexivity. }
    exists h1. split; [|split].
    + apply completes_later; [|assumption].
      simpl. unfold tick. rewrite Hbusy. reflexivity.
    + rewrite Hlat. reflexivity.
    + rewrite Hs. simpl. unfold upd. rewrite N.eqb_refl. unfold tick.
      rewrite Hbusy. reflexivity.
Qed.

(** Polling is deterministic: whenever a running transfer is seen to
    complete, the receive register holds the byte that was on the wire. *)
Lemma sim_spi_poll_rx p n : forall b x k h',
  busy (spis b p) = Some (n, x) ->
  completes (Spi p SPI_t.STATUS) SPI_IF_bm k b h' ->
  rx (spis h' p) = x.
Proof.
  induction n as [|n IH]; intros b x k h' Hbusy Hc.
  - inversion Hc as [h0 Hset|k0 h0 h0' Hclr Hrest]; subst.
    + simpl. unfold upd. rewrite N.eqb_refl. unfold tick. rewrite Hbusy.
      reflexivity.
    + exfalso. revert Hclr. simpl. unfold tick. rewrite Hbusy. simpl.
      discriminate.
  - inversion Hc as [h0 Hset|k0 h0 h0' Hclr Hrest]; subst.
    + exfalso. apply Hset. simpl. unfold tick. rewrite Hbusy. reflexivity.
    + eapply IH; [|eassumption].
      simpl. unfold upd. rewrite N.eqb_refl. unfold tick. rewrite Hbusy.
      reflexivity.
Qed.

Lemma sim_echoes p b v : line (spis b p) = Loopback -> echoes p b v.
Proof.
  intros Hline k h' Hc. simpl.
  eapply (sim_spi_poll_rx p (latency b)); [|eassumption].
  simpl. unfold upd. rewrite N.eqb_refl. unfold start. rewrite Hline.
  reflexivity.
Qed.

Lemma sim_accepts fuel p bs : forall b,
  (latency b < fuel)%nat -> accepts fuel p bs b.
Proof.
  induction bs as [|v bs IH]; intros b Hlat; [apply accepts_nil|].
  destruct (sim_spi_poll p (latency b) (hw_write (Spi p SPI_t.DATA) v b)
              (fst (incoming v (line (spis b p)))))
    as (h1 & Hc & Hlat1 & _).
  { simpl. unfold upd. rewrite N.eqb_refl. unfold start.
    destruct (incoming v (line (spis b p))). reflexivity. }
  eapply accepts_cons; [exact Hlat | exact Hc |].
  apply IH. rewrite Hlat1. exact Hlat.
Qed.





End SimTheory.

(** ** The statements at work on the simulated board *)

Section Instances.

Import Sim.

Ltac range := unfold is_u8, is_u32, valid_pin; simpl; lia.

Lemma master_init_ctrl_value_witness :
  master_pins_valid binding /\ spi_masks_u8 /\ is_u8 0x0C /\ is_u8 1 /\
  xspi_master_init binding 0x0C true 1 true (reset 2 Loopback)
  = Done tt
      (hw_write (Spi SPIC SPI_t.CTRL) 0xFD
         (hw_write (Port PORTC PORT_t.DIRSET) 0xB0 (reset 2 Loopback)))
      [Wr (Port PORTC PORT_t.DIRSET) 0xB0; Wr (Spi SPIC SPI_t.CTRL) 0xFD].
Proof.
  assert (Hp : master_pins_valid binding) by (repeat split; range).
  assert (Hm : spi_masks_u8) by (repeat split; range).
  assert (H1 : is_u8 0x0C) by range.
  assert (H2 : is_u8 1) by range.
  split; [exact Hp|]. split; [exact Hm|]. split; [exact H1|].
  split; [exact H2|].
  exact (proj1 (master_init_ctrl_value binding 0x0C true 1 true
                  (reset 2 Loopback) Hp Hm H1 H2)).
Defined.

Lemma master_init_direction_witness :
  master_pins_valid binding /\ dirset_sets PORTC /\ spi_writes_spare_ports /\
  let o := xspi_master_init binding 0 false 0 false (reset 2 Loopback) in
  returns o = true /\
  forall i,
    Z.testbit (dir_of PORTC (state_of o)) i
    = if (i =? 5) || (i =? 7) || (i =? 4) then true
      else Z.testbit (dir_of PORTC (reset 2 Loopback)) i.
Proof.
  assert (Hp : master_pins_valid binding) by (repeat split; range).
  split; [exact Hp|]. split; [apply sim_dirset_sets|].
  split; [apply sim_spi_writes_spare_ports|].
  exact (master_init_direction binding 0 false 0 false (reset 2 Loopback)
           Hp (sim_dirset_sets PORTC) sim_spi_writes_spare_ports).
Defined.

Lemma usart_master_init_baud_witness :
  is_u32 F_CPU /\ 0 < 100 < 2 ^ 32 /\
  exists h',
    xspi_usart_master_init PORTC USARTC0 0 100 (reset 2 Loopback)
    = Done tt h'
        [Wr (Usart USARTC0 USART_t.BAUDCTRLB) 0x70;
         Wr (Usart USARTC0 USART_t.BAUDCTRLA) 0xFF;
         Wr (Usart USARTC0 USART_t.CTRLC) 0xC0;
         Wr (Usart USARTC0 USART_t.CTRLB) 0x18].
Proof.
  assert (HF : is_u32 F_CPU) by range.
  assert (HB : 0 < 100 < 2 ^ 32) by lia.
  split; [exact HF|]. split; [exact HB|].
  eexists.
  exact (proj2 (proj2 (usart_master_init_baud PORTC USARTC0 0 100
                         (reset 2 Loopback) HF HB))).
Defined.

Lemma usart_master_init_undefined_iff_witness :
  2 <= F_CPU < 2 ^ 32 /\ is_u32 0 /\
  xspi_usart_master_init PORTC USARTC0 0 0 (reset 2 Loopback)
  = Undefined (reset 2 Loopback) [].
Proof.
  assert (HF : 2 <= F_CPU < 2 ^ 32) by (simpl; lia).
  assert (HB : is_u32 0) by range.
  split; [exact HF|]. split; [exact HB|].
  exact (proj2 (proj2 (usart_master_init_undefined_iff PORTC USARTC0 0 0
                         (reset 2 Loopback) HF HB)) eq_refl).
Defined.

Lemma usart_master_init_ignores_port_witness :
  usart_writes_spare_ports /\
  forall p g,
    fst (hw_read (Port p g)
           (state_of (xspi_usart_master_init PORTC USARTC0 0 8000000
                        (reset 2 Loopback))))
    = fst (hw_read (Port p g) (reset 2 Loopback)).
Proof.
  split; [apply sim_usart_writes_spare_ports|].
  exact (proj2 (usart_master_init_ignores_port PORTC USARTC0 0 8000000
                  (reset 2 Loopback)) sim_usart_writes_spare_ports).
Defined.

Lemma transfer_byte_loopback_witness :
  is_u8 0xA5 /\ echoes SPIC (reset 2 Loopback) 0xA5 /\
  exists h' t, xspi_transfer_byte 5 SPIC 0xA5 (reset 2 Loopback)
               = Done 0xA5 h' t.
Proof.
  assert (Hv : is_u8 0xA5) by range.
  assert (He : echoes SPIC (reset 2 Loopback) 0xA5)
    by (apply sim_echoes; reflexivity).
  split; [exact Hv|]. split; [exact He|].
  assert (Hb : busy (spis (hw_write (Spi SPIC SPI_t.DATA) 0xA5
                             (reset 2 Loopback)) SPIC)
               = Some (2%nat, 0xA5)) by reflexivity.
  destruct (sim_spi_poll SPIC 2 _ 0xA5 Hb) as (h1 & Hc & _).
  destruct (proj2 (transfer_byte_loopback 5 SPIC 0xA5 (reset 2 Loopback)
                     Hv He) 2%nat h1 ltac:(lia) Hc) as (w & _ & Hrun).
  eexists. eexists. exact Hrun.
Defined.


Lemma send_packet_sequence_witness :
  0 <= 2 < 256 /\ (Z.to_nat 2 <= length [1; 2; 3])%nat /\
  Forall is_u8 [1; 2; 3] /\
  let o := xspi_send_packet 4 SPIC [1; 2; 3] 2 (reset 1 (Slave [])) in
  returns o = true /\ data_writes SPIC (trace_of o) = [1; 2].
Proof.
  assert (Hl : 0 <= 2 < 256) by lia.
  assert (Hb : (Z.to_nat 2 <= length [1; 2; 3])%nat) by (simpl; lia).
  assert (Hu : Forall is_u8 [1; 2; 3]) by (repeat constructor; range).
  split; [exact Hl|]. split; [exact Hb|]. split; [exact Hu|].
  intros o.
  destruct (send_packet_sequence 4 SPIC [1; 2; 3] 2 (reset 1 (Slave []))
              Hl Hb Hu) as (_ & Hseq & Hret & _).
  split.
  - apply Hret. apply sim_accepts. simpl. lia.
  - assert (E : o = Done tt (state_of o) (trace_of o)) by reflexivity.
    exact (proj2 (proj2 (Hseq _ _ E))).
Defined.


(** Concrete runs, evaluated. *)

Example send_packet_received :
  sent (spis (state_of (xspi_send_packet 4 SPIC [1; 2; 3] 3
                          (reset 1 (Slave [])))) SPIC)
  = [1; 2; 3].
Proof. reflexivity. Qed.

Example send_packet_empty :
  trace_of (xspi_send_packet 4 SPIC [1; 2; 3] 0 (reset 1 (Slave []))) = [].
Proof. reflexivity. Qed.

Example get_packet_trace :
  trace_of (xspi_get_packet 4 SPIC [0; 0] 2 (reset 1 (Slave [7; 8])))
  = [Wr (Spi SPIC SPI_t.DATA) 255;
     Rd (Spi SPIC SPI_t.STATUS) 0; Rd (Spi SPIC SPI_t.STATUS) 128;
     Rd (Spi SPIC SPI_t.DATA) 7;
     Wr (Spi SPIC SPI_t.DATA) 255;
     Rd (Spi SPIC SPI_t.STATUS) 0; Rd (Spi SPIC SPI_t.STATUS) 128;
     Rd (Spi SPIC SPI_t.DATA) 8].
Proof. reflexivity. Qed.

Example transfer_byte_hangs :
  xspi_transfer_byte 2 SPIC 0xA5 (reset 5 Loopback)
  = Hang (state_of (xspi_transfer_byte 2 SPIC 0xA5 (reset 5 Loopback)))
      [Wr (Spi SPIC SPI_t.DATA) 0xA5;
       Rd (Spi SPIC SPI_t.STATUS) 0; Rd (Spi SPIC SPI_t.STATUS) 0].
Proof. reflexivity. Qed.

End Instances.

(** ** Further properties of the initialisation functions *)

Section MoreInitTheory.

Context `{AvrIo} `{Config} {hw : Type} `{Hardware hw}.

Lemma u8_testbit z i : Z.testbit (u8 z) i = (i <? 8) && Z.testbit z i.
Proof. unfold u8. apply Z.testbit_mod_pow2. lia. Qed.

Lemma shl1_defined n : 0 <= n < 15 -> shl1 n = Some (Z.shiftl 1 n).
Proof.
  unfold shl1. intros Hn.
  destruct (Z.leb_spec 0 n); [|lia]. destruct (Z.ltb_spec n 15); [|lia].
  reflexivity.
Qed.

Lemma shl1_undefined n : 15 <= n -> shl1 n = None.
Proof.
  unfold shl1. intros Hn. destruct (Z.ltb_spec n 15); [lia|].
  rewrite andb_false_r. reflexivity.
Qed.

(** [xspi_slave_init] returns after three stores and no load: the MISO
    bit to DIRSET, the SCK and SS bits to DIRCLR, and to CTRL the enable
    bit, the mode and the bit-order bit when [lsb], with the master bit
    left to what those contain.  On a port where DIRSET and DIRCLR set and
    clear the masked direction bits, SCK and SS end up inputs, MISO an
    output unless it shares its pin with SCK or SS, and every other pin
    keeps its direction. *)
Theorem slave_init_effect
    (config : xspi_config_t) (mode : SPI_MODE_t) (lsb : bool) (h : hw) :
  valid_pin (miso_pin config) -> valid_pin (sck_pin config) ->
  valid_pin (ss_pin config) ->
  is_u8 SPI_ENABLE_bm -> is_u8 SPI_DORD_bm -> is_u8 mode ->
  let ctrl := SPI_ENABLE_bm .| mode .| (if lsb then SPI_DORD_bm else 0) in
  let o := xspi_slave_init config mode lsb h in
  o = Done tt
        (hw_write (Spi (spi config) SPI_t.CTRL) ctrl
           (hw_write (Port (port config) PORT_t.DIRCLR)
              (Z.shiftl 1 (sck_pin config) .| Z.shiftl 1 (ss_pin config))
              (hw_write (Port (port config) PORT_t.DIRSET)
                 (Z.shiftl 1 (miso_pin config)) h)))
        [Wr (Port (port config) PORT_t.DIRSET)
            (Z.shiftl 1 (miso_pin config));
         Wr (Port (port config) PORT_t.DIRCLR)
            (Z.shiftl 1 (sck_pin config) .| Z.shiftl 1 (ss_pin config));
         Wr (Spi (spi config) SPI_t.CTRL) ctrl] /\
  (forall i,
     Z.testbit ctrl i
     = Z.testbit SPI_ENABLE_bm i || Z.testbit mode i
       || (lsb && Z.testbit SPI_DORD_bm i)) /\
  (dirset_sets (port config) -> dirclr_clears (port config) ->
   spi_writes_spare_ports ->
   forall i,
     Z.testbit (dir_of (port config) (state_of o)) i
     = if (i =? sck_pin config) || (i =? ss_pin config) then false
       else if i =? miso_pin config then true
       else Z.testbit (dir_of (port config) h) i).
Proof.
  intros Hmiso Hsck Hss Hen Hdo Hmode ctrl o.
  assert (Hctrl : u8 ctrl = ctrl).
  { apply u8_small. unfold ctrl. repeat apply lor_is_u8; try assumption.
    destruct lsb; [assumption | unfold is_u8; lia]. }
  assert (Hm : u8 (Z.shiftl 1 (miso_pin config))
               = Z.shiftl 1 (miso_pin config)).
  { apply u8_small. apply pin_bit_is_u8. assumption. }
  assert (Hc : u8 (Z.shiftl 1 (sck_pin config) .| Z.shiftl 1 (ss_pin config))
               = Z.shiftl 1 (sck_pin config) .| Z.shiftl 1 (ss_pin config)).
  { apply u8_small. apply lor_is_u8; apply pin_bit_is_u8; assumption. }
  assert (Hrun : o = Done tt
    (hw_write (Spi (spi config) SPI_t.CTRL) ctrl
       (hw_write (Port (port config) PORT_t.DIRCLR)
          (Z.shiftl 1 (sck_pin config) .| Z.shiftl 1 (ss_pin config))
          (hw_write (Port (port config) PORT_t.DIRSET)
             (Z.shiftl 1 (miso_pin config)) h)))
    [Wr (Port (port config) PORT_t.DIRSET) (Z.shiftl 1 (miso_pin config));
     Wr (Port (port config) PORT_t.DIRCLR)
        (Z.shiftl 1 (sck_pin config) .| Z.shiftl 1 (ss_pin config));
     Wr (Spi (spi config) SPI_t.CTRL) ctrl]).
  { subst o. unfold xspi_slave_init, bind.
    rewrite !shl1_valid by assumption. simpl. unfold reg_write.
    fold ctrl. rewrite Hctrl, Hm, Hc. reflexivity. }
  split; [exact Hrun|]. split.
  - intros i. unfold ctrl. rewrite !Z.lor_spec.
    destruct lsb; simpl; rewrite ?Z.bits_0, ?orb_false_r; reflexivity.
  - intros Hset Hclr Hframe i. rewrite Hrun. simpl.
    unfold dirset_sets, dirclr_clears, dir_of in *.
    rewrite Hframe, Hclr, Hset.
    rewrite Z.ldiff_spec, !Z.lor_spec. unfold valid_pin in *.
    rewrite !pin_bit_testbit by lia.
    destruct (i =? sck_pin config), (i =? ss_pin config),
      (i =? miso_pin config),
      (Z.testbit (fst (hw_read (Port (port config) PORT_t.DIR) h)) i);
      reflexivity.
Qed.

(** [xspi_master_init] with pin numbers beyond the port: a pin from 8 to
    14 adds nothing to the mask stored to DIRSET, which keeps only the
    bits below 8; with a pin of 15 or more the shift is undefined in a
    16-bit [int] and no register is accessed. *)
Theorem master_init_pin_range
    (config : xspi_config_t) (mode : SPI_MODE_t) (lsb : bool)
    (prescaler : SPI_PRESCALER_t) (clk2x : bool) (h : hw) :
  is_u8 (mosi_pin config) -> is_u8 (sck_pin config) ->
  is_u8 (ss_pin config) ->
  let o := xspi_master_init config mode lsb prescaler clk2x h in
  (mosi_pin config < 15 /\ sck_pin config < 15 /\ ss_pin config < 15 ->
   exists m c,
     o = Done tt
           (hw_write (Spi (spi config) SPI_t.CTRL) c
              (hw_write (Port (port config) PORT_t.DIRSET) m h))
           [Wr (Port (port config) PORT_t.DIRSET) m;
            Wr (Spi (spi config) SPI_t.CTRL) c] /\
     c = u8 (SPI_ENABLE_bm .| SPI_MASTER_bm .| mode .| prescaler .|
             (if clk2x then SPI_CLK2X_bm else 0) .|
             (if lsb then SPI_DORD_bm else 0)) /\
     forall i,
       Z.testbit m i
       = (i <? 8) && ((i =? mosi_pin config) || (i =? sck_pin config)
                      || (i =? ss_pin config))) /\
  (15 <= mosi_pin config \/ 15 <= sck_pin config \/ 15 <= ss_pin config ->
   o = Undefined h []).
Proof.
  intros Hmosi Hsck Hss o. unfold is_u8 in *. subst o. split.
  - intros (Hm & Hs & Hx). unfold xspi_master_init, bind.
    rewrite !shl1_defined by lia. simpl. unfold reg_write.
    eexists. eexists. split; [reflexivity|]. split; [reflexivity|].
    intros i. rewrite u8_testbit, !Z.lor_spec.
    rewrite !pin_bit_testbit by lia. reflexivity.
  - intros Hbig. unfold xspi_master_init, bind.
    destruct (Z.lt_ge_cases (mosi_pin config) 15) as [Hm|Hm].
    + rewrite (shl1_defined (mosi_pin config)) by lia. simpl.
      destruct (Z.lt_ge_cases (sck_pin config) 15) as [Hs|Hs].
      * rewrite (shl1_defined (sck_pin config)) by lia. simpl.
        rewrite (shl1_undefined (ss_pin config)) by lia. reflexivity.
      * rewrite (shl1_undefined (sck_pin config)) by lia. reflexivity.
    + rewrite (shl1_undefined (mosi_pin config)) by lia. reflexivity.
Qed.

(** Below [F_CPU / 2] the value of [SERIAL_SPI_UBBRVAL] is the largest
    [d] for which the rate [F_CPU / (2 * (d + 1))] it stands for is not
    below the requested rate; it fits the 16-bit [baudval] as soon as
    [F_CPU < 2 ^ 17 * Baud]. *)
Theorem SERIAL_SPI_UBBRVAL_bracket (Baud : Z) :
  is_u32 F_CPU -> 0 < Baud < F_CPU / 2 ->
  exists d,
    SERIAL_SPI_UBBRVAL Baud = Some d /\
    0 <= d /\
    2 * Baud * (d + 1) <= F_CPU < 2 * Baud * (d + 2) /\
    (F_CPU < 2 ^ 17 * Baud -> d <= 65535 /\ u16 d = d).
Proof.
  intros HF HB.
  destruct (SERIAL_SPI_UBBRVAL_value Baud HF ltac:(lia)) as [Hval Hq].
  specialize (Hq ltac:(lia)).
  destruct (Z.ltb_spec Baud (F_CPU / 2)) as [_|]; [|lia].
  exists (F_CPU / (2 * Baud) - 1). split; [exact Hval|].
  pose proof (Z.mul_div_le F_CPU (2 * Baud) ltac:(lia)) as Hlo.
  pose proof (Z.mul_succ_div_gt F_CPU (2 * Baud) ltac:(lia)) as Hhi.
  split; [lia|]. split; [split; [lia | nia]|].
  intros Hfit.
  assert (Hd : F_CPU / (2 * Baud) < 65536 + 1).
  { apply Z.div_lt_upper_bound; lia. }
  split; [lia|]. unfold u16. apply Z.mod_small. lia.
Qed.

End MoreInitTheory.

(** ** Further properties of the byte transfers *)

Section MoreByteTheory.

Context `{AvrIo} `{Config} {hw : Type} `{Hardware hw}.

Lemma spin_until_polls fuel r mask : forall h : hw,
  exists ss, trace_of (spin_until fuel r mask h) = map (Rd r) ss.
Proof.
  induction fuel as [|fuel IH]; intros h; simpl.
  - exists []. reflexivity.
  - unfold bind, reg_read. destruct (hw_read r h) as [x h1].
    destruct (Z.land (u8 x) mask =? 0).
    + destruct (IH h1) as (ss & Hss). exists (u8 x :: ss).
      rewrite trace_of_after, Hss. reflexivity.
    + exists [u8 x]. reflexivity.
Qed.

Lemma usart_polls_quiet usart ss :
  let t := map (Rd (Usart usart USART_t.STATUS)) ss in
  forallb is_read t = true /\ existsb writes_status t = false /\
  existsb loads_data t = false /\ usart_data_writes usart t = [].
Proof. induction ss as [|x ss IH]; simpl in *; tauto. Qed.

Lemma spin_until_stalls fuel r mask : forall h : hw,
  polls_clear fuel r mask h = true ->
  exists h' ss,
    spin_until fuel r mask h = Hang h' (map (Rd r) ss) /\
    length ss = fuel /\ Forall (fun s => Z.land s mask = 0) ss.
Proof.
  induction fuel as [|fuel IH]; intros h; simpl.
  - intros _. exists h, []. repeat split. constructor.
  - intros Hclr. apply andb_true_iff in Hclr as [Hnow Hrest].
    apply Z.eqb_eq in Hnow.
    destruct (IH _ Hrest) as (h' & ss & Hrun & Hlen & Hall).
    unfold bind, reg_read.
    destruct (hw_read r h) as [x h1] eqn:E. simpl in *.
    rewrite Hnow. simpl. rewrite Hrun. simpl.
    exists h', (u8 x :: ss). split; [reflexivity|].
    split; [simpl; congruence|]. constructor; assumption.
Qed.

Lemma spin_until_returns_iff fuel r mask (h : hw) :
  returns (spin_until fuel r mask h) = true
  <-> exists k h1, (k < fuel)%nat /\ completes r mask k h h1.
Proof.
  split.
  - destruct (spin_until fuel r mask h) as [[] h1 w|h1 w|h1 w] eqn:E;
      simpl; try discriminate. intros _.
    apply spin_until_Done_inv in E as (_ & k & Hk & Hc). eauto.
  - intros (k & h1 & Hk & Hc).
    destruct (spin_until_completes fuel _ _ k _ _ Hc Hk) as (w & -> & _).
    reflexivity.
Qed.

(** A result does not depend on the poll budget: more polls allowed give
    the same outcome. *)
Lemma spin_until_budget fuel r mask : forall fuel' (h : hw) u h' w,
  (fuel <= fuel')%nat ->
  spin_until fuel r mask h = Done u h' w ->
  spin_until fuel' r mask h = Done u h' w.
Proof.
  induction fuel as [|fuel IH]; intros fuel' h u h' w Hle; simpl.
  - discriminate.
  - destruct fuel' as [|fuel']; [lia|]. simpl. unfold bind, reg_read.
    destruct (hw_read r h) as [x h1].
    destruct (Z.land (u8 x) mask =? 0); [|auto].
    destruct (spin_until fuel r mask h1) as [a h2 t|h2 t|h2 t] eqn:Ea;
      simpl; try discriminate.
    rewrite (IH fuel' h1 a h2 t ltac:(lia) Ea). auto.
Qed.

(** [xspi_transfer_byte] has no timeout.  It returns exactly when the
    completion flag is seen within the polls allowed; while every poll
    sees the flag clear it keeps polling STATUS, having stored the byte
    and without ever loading DATA; and it involves no undefined
    behaviour. *)
Theorem transfer_byte_returns_iff (fuel : nat) (spi : ptr) (v : Z) (h : hw) :
  let o := xspi_transfer_byte fuel spi v h in
  (returns o = true
   <-> exists k h1,
         (k < fuel)%nat /\
         completes (Spi spi SPI_t.STATUS) SPI_IF_bm k
           (hw_write (Spi spi SPI_t.DATA) (u8 v) h) h1) /\
  (polls_clear fuel (Spi spi SPI_t.STATUS) SPI_IF_bm
     (hw_write (Spi spi SPI_t.DATA) (u8 v) h) = true ->
   exists h' ss,
     o = Hang h' (Wr (Spi spi SPI_t.DATA) (u8 v)
                  :: map (Rd (Spi spi SPI_t.STATUS)) ss) /\
     length ss = fuel /\ Forall (fun s => Z.land s SPI_IF_bm = 0) ss) /\
  is_undefined o = false.
Proof.
  intros o. subst o. unfold xspi_transfer_byte.
  rewrite bind_reg_write. split; [|split].
  - rewrite returns_after, <- spin_until_returns_iff.
    unfold bind, reg_read.
    destruct (spin_until fuel (Spi spi SPI_t.STATUS) SPI_IF_bm
                (hw_write (Spi spi SPI_t.DATA) (u8 v) h))
      as [[] h1 w|h1 w|h1 w]; simpl; try tauto.
    destruct (hw_read (Spi spi SPI_t.DATA) h1). simpl. tauto.
  - intros Hclr.
    destruct (spin_until_stalls _ _ _ _ Hclr) as (h' & ss & Hrun & Hlen & Hall).
    exists h', ss. rewrite (bind_Hang _ _ _ _ _ Hrun). simpl. auto.
  - rewrite is_undefined_after. unfold bind, reg_read.
    pose proof (spin_until_trace fuel (Spi spi SPI_t.STATUS) SPI_IF_bm
                  (hw_write (Spi spi SPI_t.DATA) (u8 v) h)) as [_ Hdef].
    destruct (spin_until fuel (Spi spi SPI_t.STATUS) SPI_IF_bm
                (hw_write (Spi spi SPI_t.DATA) (u8 v) h))
      as [[] h1 w|h1 w|h1 w]; simpl in *; try assumption.
    destruct (hw_read (Spi spi SPI_t.DATA) h1). reflexivity.
Qed.

(** Once [xspi_transfer_byte] returns within some poll budget, it returns
    the same byte, in the same hardware state and after the same
    accesses, within every larger budget. *)
Theorem transfer_byte_budget
    (fuel fuel' : nat) (spi : ptr) (v : Z) (h : hw) r h' t :
  (fuel <= fuel')%nat ->
  xspi_transfer_byte fuel spi v h = Done r h' t ->
  xspi_transfer_byte fuel' spi v h = Done r h' t.
Proof.
  intros Hle. unfold xspi_transfer_byte. rewrite !bind_reg_write.
  destruct (spin_until fuel (Spi spi SPI_t.STATUS) SPI_IF_bm
              (hw_write (Spi spi SPI_t.DATA) (u8 v) h))
    as [[] h1 w|h1 w|h1 w] eqn:E.
  - rewrite (bind_Done _ _ _ _ _ _ E).
    rewrite (bind_Done _ _ _ _ _ _ (spin_until_budget _ _ _ _ _ _ _ _ Hle E)).
    auto.
  - rewrite (bind_Hang _ _ _ _ _ E). discriminate.
  - unfold bind at 1. rewrite E. discriminate.
Qed.

(** [xspi_usart_send_byte] stores only after it has seen the data
    register empty: a returning call is a completed wait on that flag
    followed by the one store to DATA, and a call that is still waiting
    has stored nothing.  It never loads DATA and never stores to STATUS. *)
Theorem usart_send_byte_order (fuel : nat) (usart : ptr) (v : Z) (h : hw) :
  let o := xspi_usart_send_byte fuel usart v h in
  (forall u h' t,
     o = Done u h' t ->
     exists w,
       waits (Usart usart USART_t.STATUS) USART_DREIF_bm w /\
       t = w ++ [Wr (Usart usart USART_t.DATA) (u8 v)]) /\
  (returns o = false ->
   forallb is_read (trace_of o) = true /\
   usart_data_writes usart (trace_of o) = []) /\
  existsb writes_status (trace_of o) = false /\
  existsb loads_data (trace_of o) = false /\
  is_undefined o = false.
Proof.
  intros o. subst o. unfold xspi_usart_send_byte.
  destruct (spin_until_polls fuel (Usart usart USART_t.STATUS)
              USART_DREIF_bm h) as (ss & Hss).
  pose proof (spin_until_trace fuel (Usart usart USART_t.STATUS)
                USART_DREIF_bm h) as [_ Hdef].
  destruct (usart_polls_quiet usart ss) as (Hrd & Hws & Hld & Hdw).
  destruct (spin_until fuel (Usart usart USART_t.STATUS) USART_DREIF_bm h)
    as [[] h1 w|h1 w|h1 w] eqn:E; simpl in Hdef, Hss; try discriminate;
    subst w.
  - rewrite (bind_Done _ _ _ _ _ _ E). simpl.
    apply spin_until_Done_inv in E as (Hw & _).
    split; [|split; [|split; [|split]]].
    + intros u h' t Hrun. inversion Hrun; subst. eauto.
    + discriminate.
    + rewrite existsb_app, Hws. reflexivity.
    + rewrite existsb_app, Hld. reflexivity.
    + reflexivity.
  - rewrite (bind_Hang _ _ _ _ _ E). simpl.
    split; [|split; [|split; [|split]]]; auto. discriminate.
Qed.

End MoreByteTheory.

(** ** Further properties of the packet functions *)

Section MorePacketTheory.

Context `{AvrIo} `{Config} {hw : Type} `{Hardware hw}.

Lemma polls_no_data_write spi p ss :
  data_writes spi (map (Rd (Spi p SPI_t.STATUS)) ss) = [].
Proof. induction ss; simpl; auto. Qed.

Lemma polls_on_spi spi ss :
  forallb (on_spi spi) (map (Rd (Spi spi SPI_t.STATUS)) ss) = true.
Proof. induction ss; simpl; [|rewrite N.eqb_refl]; auto. Qed.

Lemma data_writes_cons spi b t :
  data_writes spi (Wr (Spi spi SPI_t.DATA) b :: t) = b :: data_writes spi t.
Proof. simpl. rewrite N.eqb_refl. reflexivity. Qed.

Lemma polls_no_load p ss :
  existsb loads_data (map (Rd (Spi p SPI_t.STATUS)) ss) = false.
Proof. induction ss; simpl; auto. Qed.

Lemma send_loop_any fuel spi data n : forall i (h : hw),
  Forall is_u8 data ->
  let t := trace_of (send_loop fuel spi data i n h) in
  (exists k, (k <= n)%nat /\ data_writes spi t = take k (drop i data)) /\
  forallb (on_spi spi) t = true /\
  existsb loads_data t = false.
Proof.
  induction n as [|n IH]; intros i h Hbytes t; subst t.
  - simpl. split; [|split]; try reflexivity.
    exists O. rewrite take_0. auto.
  - simpl send_loop. destruct (data !! i) as [b|] eqn:Hb.
    + assert (Hu8 : u8 b = b).
      { apply u8_small. exact (Forall_lookup_1 _ _ _ _ Hbytes Hb). }
      rewrite (drop_S _ _ _ Hb). simpl eval.
      rewrite bind_ret, bind_reg_write, Hu8, trace_of_after.
      destruct (spin_until_polls fuel (Spi spi SPI_t.STATUS) SPI_IF_bm
                  (hw_write (Spi spi SPI_t.DATA) b h)) as (ss & Hss).
      pose proof (spin_until_trace fuel (Spi spi SPI_t.STATUS) SPI_IF_bm
                    (hw_write (Spi spi SPI_t.DATA) b h)) as [_ Hdef].
      destruct (spin_until fuel (Spi spi SPI_t.STATUS) SPI_IF_bm
                  (hw_write (Spi spi SPI_t.DATA) b h))
        as [[] h1 w|h1 w|h1 w] eqn:E; simpl in Hss, Hdef; subst w;
        [| |discriminate].
      * rewrite (bind_Done _ _ _ _ _ _ E), trace_of_after.
        destruct (IH (S i) h1 Hbytes) as ((k & Hk & Hw) & Hon & Hld).
        simpl app. split; [|split].
        { exists (S k). split; [lia|].
          rewrite data_writes_cons, data_writes_app, polls_no_data_write, Hw.
          reflexivity. }
        { simpl. rewrite N.eqb_refl. simpl.
          rewrite forallb_app, polls_on_spi, Hon. reflexivity. }
        { simpl. rewrite existsb_app, polls_no_load, Hld. reflexivity. }
      * rewrite (bind_Hang _ _ _ _ _ E). simpl app. split; [|split].
        { exists 1%nat. split; [lia|].
          rewrite data_writes_cons, polls_no_data_write. reflexivity. }
        { simpl. rewrite N.eqb_refl. simpl. apply polls_on_spi. }
        { simpl. apply polls_no_load. }
    + simpl. split; [|split]; try reflexivity.
      exists O. rewrite take_0. split; [lia | reflexivity].
Qed.

(** Whatever the peripheral does and however the call ends, the bytes
    [xspi_send_packet] has stored to DATA are the first [k] bytes of the
    buffer for some [k <= len]; each of its accesses is to the DATA or the
    STATUS register of the SPI unit it was given, and none is a load from
    DATA: the bytes shifted in are never fetched. *)
Theorem send_packet_any
    (fuel : nat) (spi : ptr) (data : list Z) (len : Z) (h : hw) :
  0 <= len < 256 -> Forall is_u8 data ->
  let o := xspi_send_packet fuel spi data len h in
  (exists k,
     (k <= Z.to_nat len)%nat /\
     data_writes spi (trace_of o) = take k data) /\
  forallb (on_spi spi) (trace_of o) = true /\
  existsb loads_data (trace_of o) = false.
Proof.
  intros Hlen Hbytes o. subst o. unfold xspi_send_packet.
  rewrite (u8_small len) by (unfold is_u8; lia).
  destruct (send_loop_any fuel spi data (Z.to_nat len) 0%nat h Hbytes)
    as ((k & Hk & Hw) & Hon & Hld).
  rewrite drop_0 in Hw. eauto.
Qed.

Lemma send_loop_short fuel spi data n : forall i (h : hw),
  Forall is_u8 data ->
  (i <= length data)%nat -> (length data < i + n)%nat ->
  accepts fuel spi (drop i data) h ->
  let o := send_loop fuel spi data i n h in
  is_undefined o = true /\
  data_writes spi (trace_of o) = drop i data /\
  spi_sent spi (drop i data) h (state_of o) (trace_of o).
Proof.
  induction n as [|n IH]; intros i h Hbytes Hi Hshort Hacc o; subst o;
    [lia|].
  simpl send_loop. destruct (data !! i) as [b|] eqn:Hb.
  - assert (Hu8 : u8 b = b).
    { apply u8_small. exact (Forall_lookup_1 _ _ _ _ Hbytes Hb). }
    pose proof (lookup_lt_Some _ _ _ Hb) as Hlt.
    rewrite (drop_S _ _ _ Hb) in Hacc |- *.
    inversion Hacc as [|b' bs' h0 k h1 Hk Hc Hrest]; subst.
    destruct (spin_until_completes fuel _ _ k _ _ Hc Hk) as (w & E & Hw).
    simpl eval. rewrite bind_ret, bind_reg_write, Hu8.
    rewrite (bind_Done _ _ _ _ _ _ E).
    destruct (IH (S i) h1 Hbytes ltac:(lia) ltac:(lia) Hrest)
      as (Hu & Hd & Hs).
    rewrite !is_undefined_after, !trace_of_after, !state_of_after.
    split; [exact Hu|]. simpl app. split.
    + rewrite data_writes_cons, data_writes_app,
        (waits_no_data_write _ _ _ _ Hw), Hd. reflexivity.
    + eapply spi_sent_cons; [|exact Hs]. eapply spin_until_polled. exact E.
  - apply lookup_ge_None in Hb. rewrite drop_ge by lia. simpl.
    split; [reflexivity|]. split; [reflexivity | apply spi_sent_nil].
Qed.

(** A length beyond the end of the buffer: [xspi_send_packet] sends the
    whole buffer, as long as the transfers complete, and then reads past
    its end, which is undefined.  The hardware is by then in the state
    the stores and polls for the whole buffer lead to. *)
Theorem send_packet_short_buffer
    (fuel : nat) (spi : ptr) (data : list Z) (len : Z) (h : hw) :
  0 <= len < 256 -> (length data < Z.to_nat len)%nat ->
  Forall is_u8 data -> accepts fuel spi data h ->
  let o := xspi_send_packet fuel spi data len h in
  is_undefined o = true /\ data_writes spi (trace_of o) = data /\
  spi_sent spi data h (state_of o) (trace_of o).
Proof.
  intros Hlen Hshort Hbytes Hacc o. subst o. unfold xspi_send_packet.
  rewrite (u8_small len) by (unfold is_u8; lia).
  apply (send_loop_short fuel spi data (Z.to_nat len) 0%nat h Hbytes);
    [lia | lia | exact Hacc].
Qed.

Lemma get_loop_any fuel spi n : forall data i (h : hw) buf h' t,
  get_loop fuel spi data i n h = Done buf h' t ->
  length buf = length data /\
  exists bs,
    length bs = n /\
    buf = take i data ++ bs ++ drop (i + n) data /\
    Forall is_u8 bs /\
    exchanges spi (replicate n 255) bs t /\
    received spi bs h h' t.
Proof.
  induction n as [|n IH]; intros data i h buf h' t.
  - simpl. intros Hrun. inversion Hrun; subst. split; [reflexivity|].
    exists []. rewrite Nat.add_0_r. simpl. rewrite take_drop.
    repeat split; constructor.
  - simpl get_loop. rewrite bind_reg_write. change (u8 255) with 255.
    destruct (spin_until fuel (Spi spi SPI_t.STATUS) SPI_IF_bm
                (hw_write (Spi spi SPI_t.DATA) 255 h))
      as [[] h1 w|h1 w|h1 w] eqn:E.
    + rewrite (bind_Done _ _ _ _ _ _ E).
      pose proof (spin_until_polled _ _ _ _ _ _ _ E) as Hp.
      apply spin_until_Done_inv in E as (Hw & _).
      unfold bind at 1, reg_read.
      destruct (hw_read (Spi spi SPI_t.DATA) h1) as [x h2] eqn:Ex.
      destruct (Nat.ltb_spec i (length data)) as [Hi|Hi].
      * intros Hrun.
        apply after_Done_inv in Hrun as (t1 & Hrun & ->).
        apply after_Done_inv in Hrun as (t2 & Hrun & ->).
        apply after_Done_inv in Hrun as (t3 & Hrun & ->).
        apply IH in Hrun as (Hlen & bs & Hbs & Hbuf & Hu8 & Hex & Hrc).
        rewrite length_insert in Hlen. split; [exact Hlen|].
        exists (u8 x :: bs). split; [simpl; congruence|]. split.
        { rewrite Hbuf.
          rewrite (take_S_r (<[i:=u8 x]> data) i (u8 x))
            by (apply list_lookup_insert_eq; assumption).
          destruct (Nat.le_gt_cases (length data) (i + n)) as [Hge|Hlt].
          - rewrite !drop_ge by (rewrite ?length_insert; lia).
            rewrite take_insert_ge by lia.
            rewrite <- app_assoc. reflexivity.
          - rewrite take_insert_ge by lia.
            rewrite drop_insert_lt by lia.
            rewrite <- app_assoc. simpl.
            replace (i + S n)%nat with (S (i + n))%nat by lia.
            reflexivity. }
        split; [constructor; [apply u8_is_u8 | assumption]|].
        simpl. split; [apply exchanges_cons; assumption|].
        eapply received_cons; [exact Hp | | | exact Hrc];
          rewrite Ex; reflexivity.
      * simpl. discriminate.
    + rewrite (bind_Hang _ _ _ _ _ E). discriminate.
    + unfold bind at 1. rewrite E. discriminate.
Qed.

(** Whatever the peripheral does, when [xspi_get_packet] returns the
    first [len] places of the buffer hold exactly the bytes it loaded
    from DATA, one per exchange and in order, each of them what the
    hardware gave on that load; the buffer keeps its length and every
    place from [len] on keeps its content. *)
Theorem get_packet_any
    (fuel : nat) (spi : ptr) (data : list Z) (len : Z) (h : hw) buf h' t :
  0 <= len < 256 ->
  xspi_get_packet fuel spi data len h = Done buf h' t ->
  length buf = length data /\
  exists bs,
    length bs = Z.to_nat len /\
    buf = bs ++ drop (Z.to_nat len) data /\
    Forall is_u8 bs /\
    exchanges spi (replicate (Z.to_nat len) 255) bs t /\
    received spi bs h h' t.
Proof.
  intros Hlen. unfold xspi_get_packet.
  rewrite (u8_small len) by (unfold is_u8; lia).
  intros Hrun. apply get_loop_any in Hrun. exact Hrun.
Qed.

End MorePacketTheory.

(** ** The USART packet functions *)

Section UsartPacketTheory.

Context `{AvrIo} `{Config} {hw : Type} `{Hardware hw}.

Lemma usart_data_writes_app usart t1 t2 :
  usart_data_writes usart (t1 ++ t2)
  = usart_data_writes usart t1 ++ usart_data_writes usart t2.
Proof. unfold usart_data_writes. apply flat_map_app. Qed.

Lemma waits_no_usart_data_write usart r mask w :
  waits r mask w -> usart_data_writes usart w = [].
Proof. induction 1; simpl; [reflexivity | assumption]. Qed.

Lemma usart_sends_data_writes usart bs t :
  usart_sends usart bs t -> usart_data_writes usart t = bs.
Proof.
  induction 1 as [|b bs w t Hw Ht IH]; [reflexivity|].
  rewrite usart_data_writes_app, (waits_no_usart_data_write _ _ _ _ Hw).
  simpl. rewrite N.eqb_refl, IH. reflexivity.
Qed.


Lemma usart_send_byte_Done_inv fuel usart v (h : hw) u h' t :
  xspi_usart_send_byte fuel usart v h = Done u h' t ->
  exists w,
    waits (Usart usart USART_t.STATUS) USART_DREIF_bm w /\
    t = w ++ [Wr (Usart usart USART_t.DATA) (u8 v)].
Proof.
  unfold xspi_usart_send_byte.
  destruct (spin_until fuel (Usart usart USART_t.STATUS) USART_DREIF_bm h)
    as [[] h1 w|h1 w|h1 w] eqn:E.
  - rewrite (bind_Done _ _ _ _ _ _ E). simpl.
    apply spin_until_Done_inv in E as (Hw & _).
    intros Hrun. inversion Hrun; subst. eauto.
  - rewrite (bind_Hang _ _ _ _ _ E). discriminate.
  - unfold bind. rewrite E. discriminate.
Qed.

Lemma usart_send_byte_ready fuel usart v k (h h1 : hw) :
  (k < fuel)%nat ->
  completes (Usart usart USART_t.STATUS) USART_DREIF_bm k h h1 ->
  exists w,
    xspi_usart_send_byte fuel usart v h
    = Done tt (hw_write (Usart usart USART_t.DATA) (u8 v) h1)
        (w ++ [Wr (Usart usart USART_t.DATA) (u8 v)]).
Proof.
  intros Hk Hc.
  destruct (spin_until_completes fuel _ _ k _ _ Hc Hk) as (w & E & _).
  exists w. unfold xspi_usart_send_byte.
  rewrite (bind_Done _ _ _ _ _ _ E). reflexivity.
Qed.

Lemma usart_send_byte_defined fuel usart v (h : hw) :
  is_undefined (xspi_usart_send_byte fuel usart v h) = false.
Proof.
  unfold xspi_usart_send_byte.
  pose proof (spin_until_trace fuel (Usart usart USART_t.STATUS)
                USART_DREIF_bm h) as [_ Hdef].
  unfold bind.
  destruct (spin_until fuel (Usart usart USART_t.STATUS) USART_DREIF_bm h);
    simpl in *; auto.
Qed.

Lemma usart_send_loop_spec fuel usart data n : forall i (h : hw),
  (i + n <= length data)%nat -> Forall is_u8 data ->
  let o := usart_send_loop fuel usart data i n h in
  (forall h' t, o = Done tt h' t ->
                usart_sends usart (take n (drop i data)) t)
  /\ (usart_ready fuel usart (take n (drop i data)) h -> returns o = true)
  /\ is_undefined o = false.
Proof.
  induction n as [|n IH]; intros i h Hlen Hbytes o; subst o.
  - simpl. split; [|split]; try reflexivity.
    intros h' t Hrun. inversion Hrun; subst. apply usart_sends_nil.
  - destruct (lookup_lt_is_Some_2 data i ltac:(lia)) as [b Hb].
    assert (Hu8 : u8 b = b).
    { apply u8_small. exact (Forall_lookup_1 _ _ _ _ Hbytes Hb). }
    rewrite (drop_S _ _ _ Hb). simpl take. simpl usart_send_loop.
    rewrite Hb. simpl eval. rewrite bind_ret.
    pose proof (usart_send_byte_defined fuel usart b h) as Hdef.
    destruct (xspi_usart_send_byte fuel usart b h)
      as [[] h1 t1|h1 t1|h1 t1] eqn:E; [| |discriminate].
    + rewrite (bind_Done _ _ _ _ _ _ E).
      destruct (IH (S i) h1 ltac:(lia) Hbytes) as (IHt & IHr & IHu).
      pose proof (usart_send_byte_Done_inv _ _ _ _ _ _ _ E) as (w & Hw & ->).
      rewrite Hu8 in *.
      split; [|split].
      * intros h' t Hrun.
        apply after_Done_inv in Hrun as (t2 & Hrun & ->).
        rewrite <- app_assoc. simpl.
        apply usart_sends_cons; [assumption|]. eapply IHt. eassumption.
      * intros Hrdy.
        inversion Hrdy as [|b' bs' h0 k h2 Hk Hc Hrest]; subst.
        destruct (usart_send_byte_ready fuel usart b k _ _ Hk Hc)
          as (w' & E').
        rewrite E in E'. rewrite Hu8 in E'. inversion E'; subst.
        rewrite returns_after. apply IHr. assumption.
      * rewrite is_undefined_after. exact IHu.
    + rewrite (bind_Hang _ _ _ _ _ E).
      split; [|split].
      * discriminate.
      * intros Hrdy.
        inversion Hrdy as [|b' bs' h0 k h2 Hk Hc Hrest]; subst.
        destruct (usart_send_byte_ready fuel usart b k _ _ Hk Hc)
          as (w' & E').
        rewrite E in E'. discriminate.
      * reflexivity.
Qed.

Lemma usart_send_byte_Done_polled fuel usart v (h : hw) u h' t :
  xspi_usart_send_byte fuel usart v h = Done u h' t ->
  exists h1 w,
    polled (Usart usart USART_t.STATUS) USART_DREIF_bm h h1 w /\
    h' = hw_write (Usart usart USART_t.DATA) (u8 v) h1 /\
    t = w ++ [Wr (Usart usart USART_t.DATA) (u8 v)].
Proof.
  unfold xspi_usart_send_byte.
  destruct (spin_until fuel (Usart usart USART_t.STATUS) USART_DREIF_bm h)
    as [[] h1 w|h1 w|h1 w] eqn:E.
  - rewrite (bind_Done _ _ _ _ _ _ E). simpl.
    apply spin_until_polled in E.
    intros Hrun. inversion Hrun; subst. eauto.
  - rewrite (bind_Hang _ _ _ _ _ E). discriminate.
  - unfold bind. rewrite E. discriminate.
Qed.

Lemma usart_send_loop_sent fuel usart data n : forall i (h h' : hw) t,
  Forall is_u8 data ->
  usart_send_loop fuel usart data i n h = Done tt h' t ->
  usart_sent usart (take n (drop i data)) h h' t.
Proof.
  induction n as [|n IH]; intros i h h' t Hbytes.
  - simpl. intros Hrun. inversion Hrun; subst. apply usart_sent_nil.
  - simpl usart_send_loop. destruct (data !! i) as [b|] eqn:Hb.
    + assert (Hu8 : u8 b = b).
      { apply u8_small. exact (Forall_lookup_1 _ _ _ _ Hbytes Hb). }
      rewrite (drop_S _ _ _ Hb). simpl take. simpl eval. rewrite bind_ret.
      destruct (xspi_usart_send_byte fuel usart b h)
        as [[] h1 t1|h1 t1|h1 t1] eqn:E.
      * rewrite (bind_Done _ _ _ _ _ _ E). intros Hrun.
        apply after_Done_inv in Hrun as (t2 & Hrun & ->).
        apply usart_send_byte_Done_polled in E as (h0 & w & Hp & -> & ->).
        rewrite Hu8 in *. rewrite <- app_assoc. simpl.
        eapply usart_sent_cons; [exact Hp|]. apply IH; assumption.
      * rewrite (bind_Hang _ _ _ _ _ E). discriminate.
      * unfold bind at 1. rewrite E. discriminate.
    + simpl. discriminate.
Qed.

(** For a buffer of at least [len] bytes, a call of
    [xspi_usart_send_packet] that returns has stored exactly the first
    [len] bytes of the buffer to the USART's DATA, in buffer order, each
    store after its own completed wait for the data register to be empty,
    with every poll and store going through the hardware and the final
    state the one after the last store; it returns whenever the register
    is seen empty in time before each byte, and with [len = 0] at once
    and without any access. *)
Theorem usart_send_packet_sequence
    (fuel : nat) (usart : ptr) (data : list Z) (len : Z) (h : hw) :
  0 <= len < 256 -> (Z.to_nat len <= length data)%nat ->
  Forall is_u8 data ->
  let o := xspi_usart_send_packet fuel usart data len h in
  (len = 0 -> o = Done tt h []) /\
  (forall h' t,
     o = Done tt h' t ->
     usart_sent usart (take (Z.to_nat len) data) h h' t /\
     usart_sends usart (take (Z.to_nat len) data) t /\
     usart_data_writes usart t = take (Z.to_nat len) data) /\
  (usart_ready fuel usart (take (Z.to_nat len) data) h -> returns o = true) /\
  is_undefined o = false.
Proof.
  intros Hlen Hbuf Hbytes o. subst o. unfold xspi_usart_send_packet.
  rewrite (u8_small len) by (unfold is_u8; lia).
  destruct (usart_send_loop_spec fuel usart data (Z.to_nat len) 0%nat h
              ltac:(lia) Hbytes) as (Ht & Hr & Hu).
  rewrite drop_0 in Ht, Hr.
  split; [|split; [|split]].
  - intros ->. reflexivity.
  - intros h' t Hrun. specialize (Ht h' t Hrun). split; [|split].
    + rewrite <- (drop_0 data) at 1.
      apply (usart_send_loop_sent fuel usart data (Z.to_nat len) 0%nat);
        assumption.
    + assumption.
    + eapply usart_sends_data_writes. eassumption.
  - assumption.
  - assumption.
Qed.




End UsartPacketTheory.

(** ** The simulated board again: the USART and DIRCLR *)

Section MoreSimTheory.

Import Sim.

Lemma sim_dirclr_clears p : dirclr_clears p.
Proof.
  intros b v. unfold dir_of. simpl. unfold upd. rewrite N.eqb_refl.
  reflexivity.
Qed.

(** The simulated data register is always empty. *)
Lemma sim_usart_ready fuel p bs : forall b,
  (0 < fuel)%nat -> usart_ready fuel p bs b.
Proof.
  induction bs as [|v bs IH]; intros b Hfuel; [apply usart_ready_nil|].
  eapply (usart_ready_cons fuel p v bs b O); [exact Hfuel | |].
  - apply completes_now. simpl.
    destruct (flag (tick (usarts b p))); discriminate.
  - apply IH. exact Hfuel.
Qed.



End MoreSimTheory.

Section MoreInstances.

Import Sim.

Ltac range := unfold is_u8, is_u32, valid_pin; simpl; lia.

Lemma slave_init_effect_witness :
  valid_pin (miso_pin binding) /\ valid_pin (sck_pin binding) /\
  valid_pin (ss_pin binding) /\
  is_u8 SPI_ENABLE_bm /\ is_u8 SPI_DORD_bm /\ is_u8 0x04 /\
  dirset_sets PORTC /\ dirclr_clears PORTC /\ spi_writes_spare_ports /\
  forall i,
    Z.testbit
      (dir_of PORTC
         (state_of (xspi_slave_init binding 0x04 true
                      (hw_write (Port PORTC PORT_t.DIR) 0xFF
                         (reset 2 Loopback))))) i
    = if (i =? 7) || (i =? 4) then false
      else if i =? 6 then true
      else Z.testbit 0xFF i.
Proof.
  assert (H1 : valid_pin (miso_pin binding)) by range.
  assert (H2 : valid_pin (sck_pin binding)) by range.
  assert (H3 : valid_pin (ss_pin binding)) by range.
  assert (H4 : is_u8 SPI_ENABLE_bm) by range.
  assert (H5 : is_u8 SPI_DORD_bm) by range.
  assert (H6 : is_u8 0x04) by range.
  split; [exact H1|]. split; [exact H2|]. split; [exact H3|].
  split; [exact H4|]. split; [exact H5|]. split; [exact H6|].
  split; [apply sim_dirset_sets|]. split; [apply sim_dirclr_clears|].
  split; [apply sim_spi_writes_spare_ports|].
  exact (proj2 (proj2 (slave_init_effect binding 0x04 true
                         (hw_write (Port PORTC PORT_t.DIR) 0xFF
                            (reset 2 Loopback))
                         H1 H2 H3 H4 H5 H6))
           (sim_dirset_sets PORTC) (sim_dirclr_clears PORTC)
           sim_spi_writes_spare_ports).
Defined.

Lemma master_init_pin_range_witness :
  let config := {| spi := SPIC; port := PORTC;
                   mosi_pin := 9; miso_pin := 6; sck_pin := 7;
                   ss_pin := 4 |} in
  is_u8 (mosi_pin config) /\ is_u8 (sck_pin config) /\
  is_u8 (ss_pin config) /\
  (mosi_pin config < 15 /\ sck_pin config < 15 /\ ss_pin config < 15) /\
  exists h' m c,
    xspi_master_init config 0 false 0 false (reset 2 Loopback)
    = Done tt h' [Wr (Port PORTC PORT_t.DIRSET) m;
                  Wr (Spi SPIC SPI_t.CTRL) c] /\
    forall i, Z.testbit m i
              = (i <? 8) && ((i =? 9) || (i =? 7) || (i =? 4)).
Proof.
  intros config.
  assert (H1 : is_u8 (mosi_pin config)) by range.
  assert (H2 : is_u8 (sck_pin config)) by range.
  assert (H3 : is_u8 (ss_pin config)) by range.
  assert (H4 : mosi_pin config < 15 /\ sck_pin config < 15
               /\ ss_pin config < 15) by (simpl; lia).
  split; [exact H1|]. split; [exact H2|]. split; [exact H3|].
  split; [exact H4|].
  destruct (proj1 (master_init_pin_range config 0 false 0 false
                     (reset 2 Loopback) H1 H2 H3) H4)
    as (m & c & Hrun & _ & Hbits).
  eexists. exists m, c. split; [exact Hrun | exact Hbits].
Defined.

Lemma SERIAL_SPI_UBBRVAL_bracket_witness :
  is_u32 F_CPU /\ 0 < 115200 < F_CPU / 2 /\
  exists d,
    SERIAL_SPI_UBBRVAL 115200 = Some d /\ 0 <= d /\
    2 * 115200 * (d + 1) <= F_CPU < 2 * 115200 * (d + 2) /\
    (F_CPU < 2 ^ 17 * 115200 -> d <= 65535 /\ u16 d = d).
Proof.
  assert (HF : is_u32 F_CPU) by range.
  assert (HB : 0 < 115200 < F_CPU / 2)
    by (change (F_CPU / 2) with 16000000; lia).
  split; [exact HF|]. split; [exact HB|].
  exact (SERIAL_SPI_UBBRVAL_bracket 115200 HF HB).
Defined.

Lemma transfer_byte_returns_iff_witness :
  polls_clear 3 (Spi SPIC SPI_t.STATUS) SPI_IF_bm
    (hw_write (Spi SPIC SPI_t.DATA) (u8 0xA5) (reset 5 Loopback)) = true /\
  exists h' ss,
    xspi_transfer_byte 3 SPIC 0xA5 (reset 5 Loopback)
    = Hang h' (Wr (Spi SPIC SPI_t.DATA) (u8 0xA5)
               :: map (Rd (Spi SPIC SPI_t.STATUS)) ss) /\
    length ss = 3%nat /\ Forall (fun s => Z.land s SPI_IF_bm = 0) ss.
Proof.
  assert (Hc : polls_clear 3 (Spi SPIC SPI_t.STATUS) SPI_IF_bm
                 (hw_write (Spi SPIC SPI_t.DATA) (u8 0xA5)
                    (reset 5 Loopback)) = true) by reflexivity.
  split; [exact Hc|].
  exact (proj1 (proj2 (transfer_byte_returns_iff 3 SPIC 0xA5
                         (reset 5 Loopback))) Hc).
Defined.

Lemma transfer_byte_budget_witness :
  (3 <= 10)%nat /\
  xspi_transfer_byte 3 SPIC 0xA5 (reset 2 Loopback)
  = Done 0xA5
      (state_of (xspi_transfer_byte 3 SPIC 0xA5 (reset 2 Loopback)))
      (trace_of (xspi_transfer_byte 3 SPIC 0xA5 (reset 2 Loopback))) /\
  xspi_transfer_byte 10 SPIC 0xA5 (reset 2 Loopback)
  = Done 0xA5
      (state_of (xspi_transfer_byte 3 SPIC 0xA5 (reset 2 Loopback)))
      (trace_of (xspi_transfer_byte 3 SPIC 0xA5 (reset 2 Loopback))).
Proof.
  assert (Hle : (3 <= 10)%nat) by lia.
  assert (Hrun : xspi_transfer_byte 3 SPIC 0xA5 (reset 2 Loopback)
    = Done 0xA5
        (state_of (xspi_transfer_byte 3 SPIC 0xA5 (reset 2 Loopback)))
        (trace_of (xspi_transfer_byte 3 SPIC 0xA5 (reset 2 Loopback))))
    by reflexivity.
  split; [exact Hle|]. split; [exact Hrun|].
  exact (transfer_byte_budget 3 10 SPIC 0xA5 (reset 2 Loopback) _ _ _
           Hle Hrun).
Defined.

Lemma usart_send_byte_order_witness :
  let o := xspi_usart_send_byte 2 USARTC0 0x3C (reset 1 Loopback) in
  o = Done tt (state_of o) (trace_of o) /\
  exists w,
    waits (Usart USARTC0 USART_t.STATUS) USART_DREIF_bm w /\
    trace_of o = w ++ [Wr (Usart USARTC0 USART_t.DATA) (u8 0x3C)].
Proof.
  intros o.
  assert (Hrun : o = Done tt (state_of o) (trace_of o)) by reflexivity.
  split; [exact Hrun|].
  exact (proj1 (usart_send_byte_order 2 USARTC0 0x3C (reset 1 Loopback))
           tt (state_of o) (trace_of o) Hrun).
Defined.

Lemma send_packet_any_witness :
  0 <= 3 < 256 /\ Forall is_u8 [1; 2; 3] /\
  let o := xspi_send_packet 2 SPIC [1; 2; 3] 3 (reset 5 (Slave [])) in
  (exists k,
     (k <= Z.to_nat 3)%nat /\
     data_writes SPIC (trace_of o) = take k [1; 2; 3]) /\
  forallb (on_spi SPIC) (trace_of o) = true /\
  existsb loads_data (trace_of o) = false.
Proof.
  assert (Hl : 0 <= 3 < 256) by lia.
  assert (Hu : Forall is_u8 [1; 2; 3]) by (repeat constructor; range).
  split; [exact Hl|]. split; [exact Hu|].
  exact (send_packet_any 2 SPIC [1; 2; 3] 3 (reset 5 (Slave [])) Hl Hu).
Defined.

Lemma send_packet_short_buffer_witness :
  0 <= 5 < 256 /\ (length [1; 2] < Z.to_nat 5)%nat /\
  Forall is_u8 [1; 2] /\ accepts 4 SPIC [1; 2] (reset 1 (Slave [])) /\
  let o := xspi_send_packet 4 SPIC [1; 2] 5 (reset 1 (Slave [])) in
  is_undefined o = true /\ data_writes SPIC (trace_of o) = [1; 2] /\
  spi_sent SPIC [1; 2] (reset 1 (Slave [])) (state_of o) (trace_of o).
Proof.
  assert (Hl : 0 <= 5 < 256) by lia.
  assert (Hs : (length [1; 2] < Z.to_nat 5)%nat) by (simpl; lia).
  assert (Hu : Forall is_u8 [1; 2]) by (repeat constructor; range).
  assert (Ha : accepts 4 SPIC [1; 2] (reset 1 (Slave [])))
    by (apply sim_accepts; simpl; lia).
  split; [exact Hl|]. split; [exact Hs|]. split; [exact Hu|].
  split; [exact Ha|].
  exact (send_packet_short_buffer 4 SPIC [1; 2] 5 (reset 1 (Slave []))
           Hl Hs Hu Ha).
Defined.

Lemma get_packet_any_witness :
  let o := xspi_get_packet 4 SPIC [0; 0; 0] 2 (reset 1 (Slave [7])) in
  0 <= 2 < 256 /\
  o = Done [7; 255; 0] (state_of o) (trace_of o) /\
  length [7; 255; 0] = length [0; 0; 0] /\
  exists bs,
    length bs = Z.to_nat 2 /\
    [7; 255; 0] = bs ++ drop (Z.to_nat 2) [0; 0; 0] /\
    Forall is_u8 bs /\
    exchanges SPIC (replicate (Z.to_nat 2) 255) bs (trace_of o) /\
    received SPIC bs (reset 1 (Slave [7])) (state_of o) (trace_of o).
Proof.
  intros o.
  assert (Hl : 0 <= 2 < 256) by lia.
  assert (Hrun : o = Done [7; 255; 0] (state_of o) (trace_of o))
    by reflexivity.
  split; [exact Hl|]. split; [exact Hrun|].
  exact (get_packet_any 4 SPIC [0; 0; 0] 2 (reset 1 (Slave [7]))
           _ _ _ Hl Hrun).
Defined.

Lemma usart_send_packet_sequence_witness :
  0 <= 2 < 256 /\ (Z.to_nat 2 <= length [1; 2; 3])%nat /\
  Forall is_u8 [1; 2; 3] /\
  let o := xspi_usart_send_packet 4 USARTC0 [1; 2; 3] 2 (reset 1 Loopback) in
  returns o = true /\ usart_data_writes USARTC0 (trace_of o) = [1; 2].
Proof.
  assert (Hl : 0 <= 2 < 256) by lia.
  assert (Hb : (Z.to_nat 2 <= length [1; 2; 3])%nat) by (simpl; lia).
  assert (Hu : Forall is_u8 [1; 2; 3]) by (repeat constructor; range).
  split; [exact Hl|]. split; [exact Hb|]. split; [exact Hu|].
  intros o.
  destruct (usart_send_packet_sequence 4 USARTC0 [1; 2; 3] 2
              (reset 1 Loopback) Hl Hb Hu) as (_ & Hseq & Hret & _).
  split.
  - apply Hret. apply sim_usart_ready. lia.
  - assert (E : o = Done tt (state_of o) (trace_of o)) by reflexivity.
    exact (proj2 (proj2 (Hseq _ _ E))).
Defined.


End MoreInstances.
